(** * Schema validation of graphql-with-inputunion

    A shallow embedding of [type/validate.js.flow] (the schema validator of
    the GraphQL type system extended with input unions) and of
    [jsutils/orList.js] (the suggestion-list formatter), with the properties
    of the validation rules proved over the embedding.

    Conventions of the embedding:
    - a JavaScript array is a [list]; a nullable value is an [option];
    - an object created with [Object.create(null)] and used as a set of
      names is a [gmap string bool];
    - the validation context is threaded explicitly: a validator is a
      function from contexts to contexts (monad [V]);
    - a thrown exception is a constructor of the result type. *)

From Stdlib Require Import Ascii.
From stdpp Require Import base strings gmap list.

Local Open Scope string_scope.
Local Open Scope list_scope.

(** ** jsutils/orList.js *)

Module OrList.

Definition MAX_LENGTH : nat := 5.

(** [Array.prototype.reduce] called without an initial value: the first
    element is the initial accumulator and the callback runs from index 1;
    on an empty array the call throws a TypeError ([None]). *)
Fixpoint reduceFrom {A} (f : A → A → nat → A) (acc : A) (index : nat)
    (l : list A) : A :=
  match l with
  | [] => acc
  | x :: rest => reduceFrom f (f acc x index) (S index) rest
  end.

Definition reduce {A} (f : A → A → nat → A) (l : list A) : option A :=
  match l with
  | [] => None
  | x :: rest => Some (reduceFrom f x 1 rest)
  end.

Definition orList (items : list string) : option string :=
  let selected := take MAX_LENGTH items in
  reduce (fun list quoted index =>
            ((list +:+ (if bool_decide (2 < length selected)%nat then ", " else " "))
               +:+ (if bool_decide (index = length selected - 1) then "or " else ""))
              +:+ quoted)
         selected.

(** The formatter as the specification words it: at most the first five
    items, the last one prefixed by "or " when at least two remain, joined
    by [sep]. *)
Fixpoint markLast (l : list string) : list string :=
  match l with
  | [] => []
  | [x] => ["or " +:+ x]
  | x :: rest => x :: markLast rest
  end.

Definition rendering (sep : string) (items : list string) : string :=
  let selected := take MAX_LENGTH items in
  String.concat sep
    (if bool_decide (2 ≤ length selected)%nat then markLast selected else selected).

(** Comma-joined throughout, as the specification says. *)
Definition orList_spec (items : list string) : string :=
  rendering ", " items.

(** The separator the code uses: ", " when more than two items remain after
    truncation, a single space otherwise. *)
Definition separator (items : list string) : string :=
  if bool_decide (2 < length (take MAX_LENGTH items))%nat then ", " else " ".

(** What the callback of [orList] adds after the accumulator, for the items
    still to come: each one behind the separator, the last one behind "or ". *)
Fixpoint tailRendering (sep : string) (rest : list string) : string :=
  match rest with
  | [] => ""
  | y :: r =>
      sep +:+ (if bool_decide (r = []) then "or " else "") +:+ y
          +:+ tailRendering sep r
  end.

End OrList.

(** ** language/ast: the AST nodes the validator reads

    Only the properties read by [validate.js.flow] are kept.  [node.name.value]
    is the [_name] projection of each record. *)

Record NamedTypeNode := { ntn_name : string }.

Inductive TypeNode :=
| NamedTypeN (n : NamedTypeNode)
| ListTypeN (type : TypeNode)
| NonNullTypeN (type : TypeNode).

Record InputValueDefinitionNode :=
  { ivd_name : string; ivd_type : TypeNode }.

Record FieldDefinitionNode :=
  { fd_name : string;
    fd_arguments : option (list InputValueDefinitionNode);
    fd_type : TypeNode }.

Record EnumValueDefinitionNode := { evd_name : string }.

(** A type definition or type extension node.  [interfaces] and [fields]
    are read on Object and Interface nodes, [types] on Union and InputUnion
    nodes, [values] on Enum nodes; a property a node kind does not have is
    [None] (undefined). *)
Record TypeDefinitionNode :=
  { td_interfaces : option (list NamedTypeNode);
    td_fields : option (list FieldDefinitionNode);
    td_types : option (list NamedTypeNode);
    td_values : option (list EnumValueDefinitionNode) }.

Record DirectiveDefinitionNode :=
  { dd_arguments : option (list InputValueDefinitionNode) }.

Record OperationTypeDefinitionNode :=
  { otd_operation : string; otd_type : NamedTypeNode }.

Record SchemaDefinitionNode :=
  { operationTypes : list OperationTypeDefinitionNode }.

Inductive ASTNode :=
| SchemaDefinition (n : SchemaDefinitionNode)
| TypeDefinition (n : TypeDefinitionNode)
| FieldDefinition (n : FieldDefinitionNode)
| InputValueDefinition (n : InputValueDefinitionNode)
| EnumValueDefinition (n : EnumValueDefinitionNode)
| DirectiveDefinition (n : DirectiveDefinitionNode)
| Type_ (n : TypeNode).

(** ** error/GraphQLError *)

Record GraphQLError := { message : string; nodes : list ASTNode }.

(** ** type/definition: the schema object graph *)

(** Modelled from the spec: the kinds of named types of [type/definition.js],
    which is not among the sources.  The specification's data model makes a
    named type a closed variant over seven kinds; the kind is the tag [kind]
    of a named type and the classification predicates [isObjectType],
    [isInterfaceType], ... test it. *)
Inductive TypeKind :=
| Scalar | Object | Interface | Union | InputUnion | Enum | InputObject.

Global Instance TypeKind_eq_dec : EqDecision TypeKind.
Proof. solve_decision. Defined.

(** A type reference as a field or an argument holds it: a named type under
    any depth of list and non-null wrappers. *)
Inductive GraphQLType :=
| Named (name : string) (kind : TypeKind)
| GraphQLList (ofType : GraphQLType)
| GraphQLNonNull (ofType : GraphQLType).

Record GraphQLArgument :=
  { arg_name : string;
    arg_type : GraphQLType;
    arg_astNode : option InputValueDefinitionNode }.

Record GraphQLField :=
  { field_name : string;
    field_type : GraphQLType;
    field_args : list GraphQLArgument;
    field_astNode : option FieldDefinitionNode }.

Record GraphQLInputField :=
  { ifield_name : string;
    ifield_type : GraphQLType;
    ifield_astNode : option InputValueDefinitionNode }.

Record GraphQLEnumValue :=
  { ev_name : string; ev_astNode : option EnumValueDefinitionNode }.

(** A named type object.  The payload of each kind is a property of the
    object: [getFields] and [getInterfaces] for Object (and [getFields] for
    Interface), [getTypes] for Union and InputUnion, [getValues] for Enum,
    [getInputFields] (the [getFields] of an InputObject) for InputObject.  A
    map keyed by name is the list of its entries in [Object.keys] order. *)
#[warnings="-register-all"]
Inductive GraphQLNamedType := mkNamedType
  { name : string;
    kind : TypeKind;
    astNode : option TypeDefinitionNode;
    extensionASTNodes : option (list TypeDefinitionNode);
    getFields : list (string * GraphQLField);
    getInputFields : list (string * GraphQLInputField);
    getInterfaces : list GraphQLNamedType;
    getTypes : list GraphQLNamedType;
    getValues : list GraphQLEnumValue }.

Definition isObjectType (t : GraphQLNamedType) : bool :=
  bool_decide (kind t = Object).
Definition isInterfaceType (t : GraphQLNamedType) : bool :=
  bool_decide (kind t = Interface).
Definition isUnionType (t : GraphQLNamedType) : bool :=
  bool_decide (kind t = Union).
Definition isInputUnionType (t : GraphQLNamedType) : bool :=
  bool_decide (kind t = InputUnion).
Definition isEnumType (t : GraphQLNamedType) : bool :=
  bool_decide (kind t = Enum).
Definition isInputObjectType (t : GraphQLNamedType) : bool :=
  bool_decide (kind t = InputObject).

(** The same classification asked of a type reference: a wrapper is of no
    named kind. *)
Definition refIsInputUnionType (ty : GraphQLType) : bool :=
  match ty with
  | Named _ InputUnion => true
  | _ => false
  end.

Definition isNonNullType (ty : GraphQLType) : bool :=
  match ty with
  | GraphQLNonNull _ => true
  | _ => false
  end.

(** The named type seen as a type reference. *)
Definition asType (t : GraphQLNamedType) : GraphQLType :=
  Named (name t) (kind t).

(** ** type/directives *)

Record GraphQLDirective :=
  { d_name : string;
    d_args : list GraphQLArgument;
    d_astNode : option DirectiveDefinitionNode }.

(** An entry of the schema's directive list: a directive, or any other
    value, of which the validator reads [String(value)] and
    [value && value.astNode]. *)
Inductive DirectiveValue :=
| NotDirective (rendering : string) (node : option ASTNode)
| IsDirective (directive : GraphQLDirective).

(** A value of the schema's type map: a named type, or any other value. *)
Inductive TypeMapValue :=
| NotNamedType (rendering : string) (node : option ASTNode)
| IsNamedType (type : GraphQLNamedType).

(** ** type/schema *)

Record GraphQLSchema :=
  { getQueryType : option GraphQLNamedType;
    getMutationType : option GraphQLNamedType;
    getSubscriptionType : option GraphQLNamedType;
    getTypeMap : list (string * TypeMapValue);
    getDirectives : list DirectiveValue;
    __allowedLegacyNames : option (list string);
    schema_astNode : option SchemaDefinitionNode;
    __validationErrors : option (list GraphQLError) }.

(** [schema.__validationErrors = errors] *)
Definition set__validationErrors (schema : GraphQLSchema)
    (errors : list GraphQLError) : GraphQLSchema :=
  {| getQueryType := getQueryType schema;
     getMutationType := getMutationType schema;
     getSubscriptionType := getSubscriptionType schema;
     getTypeMap := getTypeMap schema;
     getDirectives := getDirectives schema;
     __allowedLegacyNames := __allowedLegacyNames schema;
     schema_astNode := schema_astNode schema;
     __validationErrors := Some errors |}.

(** The argument of the entry points: [isSchema] tells a schema instance
    from any other value. *)
Inductive SchemaArg :=
| NotSchema (rendering : string)
| IsSchema (schema : GraphQLSchema).

(** ** The external collaborators

    The comparators of [utilities/typeComparators], the name grammar of
    [utilities/assertValidName], the input/output classification and the
    introspection set are consumed, not defined, by the validator; so is the
    rendering [String(type)] of a type. *)
Class Collaborators :=
  { isInputType : GraphQLType → bool;
    isOutputType : GraphQLType → bool;
    isIntrospectionType : GraphQLNamedType → bool;
    isEqualType : GraphQLType → GraphQLType → bool;
    isTypeSubTypeOf : GraphQLSchema → GraphQLType → GraphQLType → bool;
    isValidNameError : string → option ASTNode → option GraphQLError;
    toString : GraphQLType → string }.

(** ** The validation context *)

Record SchemaValidationContext :=
  { _errors : list GraphQLError; schema : GraphQLSchema }.

(** [new SchemaValidationContext(schema)] *)
Definition newContext (schema : GraphQLSchema) : SchemaValidationContext :=
  {| _errors := []; schema := schema |}.

(** A validator: a computation over the context it is handed. *)
Definition V (A : Type) : Type :=
  SchemaValidationContext → A * SchemaValidationContext.

Definition ret {A} (a : A) : V A := λ context, (a, context).

Definition bind {A B} (m : V A) (k : A → V B) : V B :=
  λ context, let '(a, context') := m context in k a context'.

Notation "x ⟵ m ;; k" := (bind m (λ x, k))
  (at level 100, m at next level, right associativity).
Notation "m ;; k" := (bind m (λ _, k))
  (at level 100, right associativity).

(** [context.schema] *)
Definition theSchema : V GraphQLSchema := λ context, (schema context, context).

(** [if (cond) { body }] *)
Definition when (cond : bool) (body : V unit) : V unit :=
  if cond then body else ret tt.

(** [list.forEach(body)] *)
Fixpoint forEach {A} (l : list A) (body : A → V unit) : V unit :=
  match l with
  | [] => ret tt
  | x :: rest => body x ;; forEach rest body
  end.

(** [list.forEach(body)] where the callback reads and updates an object
    [names] created just before the loop. *)
Fixpoint forEachWith {A S} (l : list A) (body : A → S → V S) (names : S)
    : V unit :=
  match l with
  | [] => ret tt
  | x :: rest => names' ⟵ body x names ;; forEachWith rest body names'
  end.

(** [names[key]] as a condition, [names] holding [true] at the keys set. *)
Definition has (names : gmap string bool) (key : string) : bool :=
  default false (names !! key).

(** The [nodes] argument of [reportError]: one nullable node or an array of
    nullable nodes. *)
Inductive NodesArg :=
| OneNode (node : option ASTNode)
| NodeArray (nodes : list (option ASTNode)).

(** A nullable array of nodes handed to [reportError]. *)
Definition nullableArray {A} (inj : A → ASTNode) (nodes : option (list A))
    : NodesArg :=
  match nodes with
  | None => OneNode None
  | Some l => NodeArray (Some ∘ inj <$> l)
  end.

(** [(Array.isArray(nodes) ? nodes : [nodes]).filter(Boolean)] *)
Definition filterBoolean (nodes : NodesArg) : list ASTNode :=
  omap id (match nodes with OneNode n => [n] | NodeArray l => l end).

Definition addError (error : GraphQLError) : V unit :=
  λ context,
    (tt, {| _errors := _errors context ++ [error]; schema := schema context |}).

Definition reportError (message : string) (nodes : NodesArg) : V unit :=
  addError {| message := message; nodes := filterBoolean nodes |}.

Definition getErrors (context : SchemaValidationContext) : list GraphQLError :=
  _errors context.

(** ** Locating AST nodes *)

(** [jsutils/find]: the first element satisfying the predicate. *)
Definition find {A} (l : list A) (p : A → bool) : option A := List.find p l.

(** [map[key]] on a map given by its entries. *)
Fixpoint prop {A} (m : list (string * A)) (key : string) : option A :=
  match m with
  | [] => None
  | (k, v) :: rest => if String.eqb k key then Some v else prop rest key
  end.

Definition getOperationTypeNode (schema : GraphQLSchema)
    (type : GraphQLNamedType) (operation : string) : option ASTNode :=
  let operationTypeNode :=
    n ← schema_astNode schema;
    find (operationTypes n) (λ operationType,
      String.eqb (otd_operation operationType) operation) in
  match operationTypeNode with
  | Some operationTypeNode => Some (Type_ (NamedTypeN (otd_type operationTypeNode)))
  | None => TypeDefinition <$> astNode type
  end.

Definition getAllObjectOrInterfaceNodes (type : GraphQLNamedType)
    : list TypeDefinitionNode :=
  match astNode type with
  | Some node =>
      match extensionASTNodes type with
      | Some exts => [node] ++ exts
      | None => [node]
      end
  | None => default [] (extensionASTNodes type)
  end.

(** The source gives [getAllObjectNodes] the same body. *)
Definition getAllObjectNodes (type : GraphQLNamedType)
    : list TypeDefinitionNode :=
  getAllObjectOrInterfaceNodes type.

Definition getAllImplementsInterfaceNodes (type iface : GraphQLNamedType)
    : list NamedTypeNode :=
  flat_map (λ astNode,
      match td_interfaces astNode with
      | Some interfaces =>
          filter (λ node, ntn_name node = name iface) interfaces
      | None => []
      end)
    (getAllObjectNodes type).

Definition getImplementsInterfaceNode (type iface : GraphQLNamedType)
    : option NamedTypeNode :=
  head (getAllImplementsInterfaceNodes type iface).

Definition getAllFieldNodes (type : GraphQLNamedType) (fieldName : string)
    : list FieldDefinitionNode :=
  flat_map (λ astNode,
      match td_fields astNode with
      | Some fields => filter (λ node, fd_name node = fieldName) fields
      | None => []
      end)
    (getAllObjectOrInterfaceNodes type).

Definition getFieldNode (type : GraphQLNamedType) (fieldName : string)
    : option FieldDefinitionNode :=
  head (getAllFieldNodes type fieldName).

Definition getFieldTypeNode (type : GraphQLNamedType) (fieldName : string)
    : option TypeNode :=
  fd_type <$> getFieldNode type fieldName.

Definition getAllFieldArgNodes (type : GraphQLNamedType)
    (fieldName argName : string) : list InputValueDefinitionNode :=
  match getFieldNode type fieldName ≫= fd_arguments with
  | Some arguments => filter (λ node, ivd_name node = argName) arguments
  | None => []
  end.

Definition getFieldArgNode (type : GraphQLNamedType)
    (fieldName argName : string) : option InputValueDefinitionNode :=
  head (getAllFieldArgNodes type fieldName argName).

Definition getFieldArgTypeNode (type : GraphQLNamedType)
    (fieldName argName : string) : option TypeNode :=
  ivd_type <$> getFieldArgNode type fieldName argName.

Definition getAllDirectiveArgNodes (directive : GraphQLDirective)
    (argName : string) : list InputValueDefinitionNode :=
  match d_astNode directive ≫= dd_arguments with
  | Some arguments => filter (λ node, ivd_name node = argName) arguments
  | None => []
  end.

Definition getDirectiveArgTypeNode (directive : GraphQLDirective)
    (argName : string) : option TypeNode :=
  ivd_type <$> head (getAllDirectiveArgNodes directive argName).

Definition getUnionMemberTypeNodes (union : GraphQLNamedType)
    (typeName : string) : option (list NamedTypeNode) :=
  types ← astNode union ≫= td_types;
  Some (filter (λ type, ntn_name type = typeName) types).

Definition getInputUnionMemberTypeNodes (inputUnion : GraphQLNamedType)
    (typeName : string) : option (list NamedTypeNode) :=
  types ← astNode inputUnion ≫= td_types;
  Some (filter (λ type, ntn_name type = typeName) types).

Definition getEnumValueNodes (enumType : GraphQLNamedType)
    (valueName : string) : option (list EnumValueDefinitionNode) :=
  values ← astNode enumType ≫= td_values;
  Some (filter (λ value, evd_name value = valueName) values).

(** ** The validators

    The callback of each [forEach] is a definition of its own, named after
    the function it occurs in and its parameter. *)

Section Validators.
Context `{Collaborators}.

(** [String(type)] of a named type. *)
Definition String_ (type : GraphQLNamedType) : string := toString (asType type).

Definition validateRootTypes : V unit :=
  schema ⟵ theSchema ;;
  match getQueryType schema with
  | None =>
      reportError "Query root type must be provided."
        (OneNode (SchemaDefinition <$> schema_astNode schema))
  | Some queryType =>
      when (negb (isObjectType queryType))
        (reportError
           ("Query root type must be Object type, it cannot be "
              +:+ String_ queryType +:+ ".")
           (OneNode (getOperationTypeNode schema queryType "query")))
  end ;;
  match getMutationType schema with
  | Some mutationType =>
      when (negb (isObjectType mutationType))
        (reportError
           ("Mutation root type must be Object type if provided, it cannot be "
              +:+ String_ mutationType +:+ ".")
           (OneNode (getOperationTypeNode schema mutationType "mutation")))
  | None => ret tt
  end ;;
  match getSubscriptionType schema with
  | Some subscriptionType =>
      when (negb (isObjectType subscriptionType))
        (reportError
           ("Subscription root type must be Object type if provided, it cannot be "
              +:+ String_ subscriptionType +:+ ".")
           (OneNode (getOperationTypeNode schema subscriptionType "subscription")))
  | None => ret tt
  end.

Definition validateName (name : string) (astNode : option ASTNode) : V unit :=
  schema ⟵ theSchema ;;
  if match __allowedLegacyNames schema with
     | Some allowed => bool_decide (name ∈ allowed)
     | None => false
     end
  then ret tt
  else
    match isValidNameError name astNode with
    | Some error => addError error
    | None => ret tt
    end.

(** [directive.args.forEach(arg => ...)] in [validateDirectives] *)
Definition validateDirectives_arg (directive : GraphQLDirective)
    (arg : GraphQLArgument) (argNames : gmap string bool)
    : V (gmap string bool) :=
  let argName := arg_name arg in
  validateName (arg_name arg) (InputValueDefinition <$> arg_astNode arg) ;;
  if has argNames argName then
    reportError
      ("Argument @" +:+ d_name directive +:+ "(" +:+ argName
         +:+ ":) can only be defined once.")
      (NodeArray (Some ∘ InputValueDefinition
                    <$> getAllDirectiveArgNodes directive argName)) ;;
    ret argNames
  else
    let argNames := <[argName := true]> argNames in
    when (negb (isInputType (arg_type arg))
          && negb (refIsInputUnionType (arg_type arg)))
      (reportError
         ("The type of @" +:+ d_name directive +:+ "(" +:+ argName
            +:+ ":) must be Input Type but got: "
            +:+ toString (arg_type arg) +:+ ".")
         (OneNode (Type_ <$> getDirectiveArgTypeNode directive argName))) ;;
    ret argNames.

(** [directives.forEach(directive => ...)] in [validateDirectives] *)
Definition validateDirectives_directive (directive : DirectiveValue) : V unit :=
  match directive with
  | NotDirective rendering node =>
      reportError ("Expected directive but got: " +:+ rendering +:+ ".")
        (OneNode node)
  | IsDirective directive =>
      validateName (d_name directive)
        (DirectiveDefinition <$> d_astNode directive) ;;
      forEachWith (d_args directive) (validateDirectives_arg directive)
        (∅ : gmap string bool)
  end.

Definition validateDirectives : V unit :=
  schema ⟵ theSchema ;;
  forEach (getDirectives schema) validateDirectives_directive.

(** [field.args.forEach(arg => ...)] in [validateFields] *)
Definition validateFields_arg (type : GraphQLNamedType) (fieldName : string)
    (arg : GraphQLArgument) (argNames : gmap string bool)
    : V (gmap string bool) :=
  let argName := arg_name arg in
  validateName (arg_name arg) (InputValueDefinition <$> arg_astNode arg) ;;
  when (has argNames argName)
    (reportError
       ("Field argument " +:+ name type +:+ "." +:+ fieldName +:+ "("
          +:+ argName +:+ ":) can only be defined once.")
       (NodeArray (Some ∘ InputValueDefinition
                     <$> getAllFieldArgNodes type fieldName argName))) ;;
  let argNames := <[argName := true]> argNames in
  when (negb (isInputType (arg_type arg))
        && negb (refIsInputUnionType (arg_type arg)))
    (reportError
       ("The type of " +:+ name type +:+ "." +:+ fieldName +:+ "("
          +:+ argName +:+ ":) must be Input Type but got: "
          +:+ toString (arg_type arg) +:+ ".")
       (OneNode (Type_ <$> getFieldArgTypeNode type fieldName argName))) ;;
  ret argNames.

(** [fieldNames.forEach(fieldName => ...)] in [validateFields]; the entry
    is the name with [fieldMap[fieldName]]. *)
Definition validateFields_field (type : GraphQLNamedType)
    (entry : string * GraphQLField) : V unit :=
  let '(fieldName, field) := entry in
  validateName (field_name field) (FieldDefinition <$> field_astNode field) ;;
  let fieldNodes := getAllFieldNodes type fieldName in
  if bool_decide (1 < length fieldNodes) then
    reportError
      ("Field " +:+ name type +:+ "." +:+ fieldName
         +:+ " can only be defined once.")
      (NodeArray (Some ∘ FieldDefinition <$> fieldNodes))
  else
    when (negb (isOutputType (field_type field)))
      (reportError
         ("The type of " +:+ name type +:+ "." +:+ fieldName
            +:+ " must be Output Type but got: "
            +:+ toString (field_type field) +:+ ".")
         (OneNode (Type_ <$> getFieldTypeNode type fieldName))) ;;
    forEachWith (field_args field) (validateFields_arg type fieldName)
      (∅ : gmap string bool).

Definition validateFields (type : GraphQLNamedType) : V unit :=
  let fieldMap := getFields type in
  when (bool_decide (length fieldMap = 0))
    (reportError
       ("Type " +:+ name type +:+ " must define one or more fields.")
       (NodeArray (Some ∘ TypeDefinition <$> getAllObjectOrInterfaceNodes type))) ;;
  forEach fieldMap (validateFields_field type).

(** [ifaceField.args.forEach(ifaceArg => ...)] in
    [validateObjectImplementsInterface] *)
Definition validateObjectImplementsInterface_ifaceArg
    (object iface : GraphQLNamedType) (fieldName : string)
    (objectField : GraphQLField) (ifaceArg : GraphQLArgument) : V unit :=
  let argName := arg_name ifaceArg in
  match find (field_args objectField)
          (λ arg, String.eqb (arg_name arg) argName) with
  | None =>
      reportError
        ("Interface field argument " +:+ name iface +:+ "."
           +:+ fieldName +:+ "(" +:+ argName +:+ ":) expected but "
           +:+ name object +:+ "." +:+ fieldName
           +:+ " does not provide it.")
        (NodeArray
           [InputValueDefinition <$> getFieldArgNode iface fieldName argName;
            FieldDefinition <$> getFieldNode object fieldName])
  | Some objectArg =>
      when (negb (isEqualType (arg_type ifaceArg) (arg_type objectArg)))
        (reportError
           ("Interface field argument " +:+ name iface +:+ "."
              +:+ fieldName +:+ "(" +:+ argName +:+ ":) expects type "
              +:+ toString (arg_type ifaceArg) +:+ " but "
              +:+ name object +:+ "." +:+ fieldName +:+ "("
              +:+ argName +:+ ":) is type "
              +:+ toString (arg_type objectArg) +:+ ".")
           (NodeArray
              [Type_ <$> getFieldArgTypeNode iface fieldName argName;
               Type_ <$> getFieldArgTypeNode object fieldName argName]))
  end.

(** [objectField.args.forEach(objectArg => ...)] in
    [validateObjectImplementsInterface] *)
Definition validateObjectImplementsInterface_objectArg
    (object iface : GraphQLNamedType) (fieldName : string)
    (ifaceField : GraphQLField) (objectArg : GraphQLArgument) : V unit :=
  let argName := arg_name objectArg in
  let ifaceArg :=
    find (field_args ifaceField) (λ arg, String.eqb (arg_name arg) argName) in
  when (negb (bool_decide (is_Some ifaceArg))
        && isNonNullType (arg_type objectArg))
    (reportError
       ("Object field argument " +:+ name object +:+ "." +:+ fieldName
          +:+ "(" +:+ argName +:+ ":) is of required type "
          +:+ toString (arg_type objectArg)
          +:+ " but is not also provided by the Interface field "
          +:+ name iface +:+ "." +:+ fieldName +:+ ".")
       (NodeArray
          [Type_ <$> getFieldArgTypeNode object fieldName argName;
           FieldDefinition <$> getFieldNode iface fieldName])).

(** [Object.keys(ifaceFieldMap).forEach(fieldName => ...)] in
    [validateObjectImplementsInterface]; the entry is the name with
    [ifaceFieldMap[fieldName]]. *)
Definition validateObjectImplementsInterface_field
    (object iface : GraphQLNamedType) (entry : string * GraphQLField)
    : V unit :=
  let '(fieldName, ifaceField) := entry in
  schema ⟵ theSchema ;;
  match prop (getFields object) fieldName with
  | None =>
      reportError
        ("Interface field " +:+ name iface +:+ "." +:+ fieldName
           +:+ " expected but " +:+ name object
           +:+ " does not provide it.")
        (NodeArray [FieldDefinition <$> getFieldNode iface fieldName;
                    TypeDefinition <$> astNode object])
  | Some objectField =>
      when (negb (isTypeSubTypeOf schema (field_type objectField)
                    (field_type ifaceField)))
        (reportError
           ("Interface field " +:+ name iface +:+ "." +:+ fieldName
              +:+ " expects type " +:+ toString (field_type ifaceField)
              +:+ " but " +:+ name object +:+ "." +:+ fieldName
              +:+ " is type " +:+ toString (field_type objectField)
              +:+ ".")
           (NodeArray [Type_ <$> getFieldTypeNode iface fieldName;
                       Type_ <$> getFieldTypeNode object fieldName])) ;;
      forEach (field_args ifaceField)
        (validateObjectImplementsInterface_ifaceArg object iface fieldName
           objectField) ;;
      forEach (field_args objectField)
        (validateObjectImplementsInterface_objectArg object iface fieldName
           ifaceField)
  end.

Definition validateObjectImplementsInterface
    (object iface : GraphQLNamedType) : V unit :=
  if negb (isInterfaceType iface) then
    reportError
      ("Type " +:+ String_ object +:+ " must only implement Interface types, "
         +:+ "it cannot implement " +:+ String_ iface +:+ ".")
      (OneNode (Type_ ∘ NamedTypeN <$> getImplementsInterfaceNode object iface))
  else
    forEach (getFields iface)
      (validateObjectImplementsInterface_field object iface).

(** [object.getInterfaces().forEach(iface => ...)] in
    [validateObjectInterfaces] *)
Definition validateObjectInterfaces_iface (object iface : GraphQLNamedType)
    (implementedTypeNames : gmap string bool) : V (gmap string bool) :=
  if has implementedTypeNames (name iface) then
    reportError
      ("Type " +:+ name object +:+ " can only implement " +:+ name iface
         +:+ " once.")
      (NodeArray (Some ∘ Type_ ∘ NamedTypeN
                    <$> getAllImplementsInterfaceNodes object iface)) ;;
    ret implementedTypeNames
  else
    let implementedTypeNames := <[name iface := true]> implementedTypeNames in
    validateObjectImplementsInterface object iface ;;
    ret implementedTypeNames.

Definition validateObjectInterfaces (object : GraphQLNamedType) : V unit :=
  forEachWith (getInterfaces object) (validateObjectInterfaces_iface object)
    (∅ : gmap string bool).

(** [memberTypes.forEach(memberType => ...)] in [validateInputUnionMembers] *)
Definition validateInputUnionMembers_memberType (inputUnion : GraphQLNamedType)
    (memberType : GraphQLNamedType) (includedTypeNames : gmap string bool)
    : V (gmap string bool) :=
  if has includedTypeNames (name memberType) then
    reportError
      ("Input Union type " +:+ name inputUnion +:+ " can only include type "
         +:+ name memberType +:+ " once.")
      (nullableArray (Type_ ∘ NamedTypeN)
         (getInputUnionMemberTypeNodes inputUnion (name memberType))) ;;
    ret includedTypeNames
  else
    let includedTypeNames := <[name memberType := true]> includedTypeNames in
    when (negb (isInputObjectType memberType))
      (reportError
         ("Input Union type " +:+ name inputUnion
            +:+ " can only include Input Object types, "
            +:+ "it cannot include " +:+ String_ memberType +:+ ".")
         (nullableArray (Type_ ∘ NamedTypeN)
            (getInputUnionMemberTypeNodes inputUnion (String_ memberType)))) ;;
    ret includedTypeNames.

Definition validateInputUnionMembers (inputUnion : GraphQLNamedType) : V unit :=
  let memberTypes := getTypes inputUnion in
  when (bool_decide (length memberTypes = 0))
    (reportError
       ("Input Union type " +:+ name inputUnion
          +:+ " must define one or more member types.")
       (OneNode (TypeDefinition <$> astNode inputUnion))) ;;
  forEachWith memberTypes (validateInputUnionMembers_memberType inputUnion)
    (∅ : gmap string bool).

(** [memberTypes.forEach(memberType => ...)] in [validateUnionMembers] *)
Definition validateUnionMembers_memberType (union : GraphQLNamedType)
    (memberType : GraphQLNamedType) (includedTypeNames : gmap string bool)
    : V (gmap string bool) :=
  if has includedTypeNames (name memberType) then
    reportError
      ("Union type " +:+ name union +:+ " can only include type "
         +:+ name memberType +:+ " once.")
      (nullableArray (Type_ ∘ NamedTypeN)
         (getUnionMemberTypeNodes union (name memberType))) ;;
    ret includedTypeNames
  else
    let includedTypeNames := <[name memberType := true]> includedTypeNames in
    when (negb (isObjectType memberType))
      (reportError
         ("Union type " +:+ name union +:+ " can only include Object types, "
            +:+ "it cannot include " +:+ String_ memberType +:+ ".")
         (nullableArray (Type_ ∘ NamedTypeN)
            (getUnionMemberTypeNodes union (String_ memberType)))) ;;
    ret includedTypeNames.

Definition validateUnionMembers (union : GraphQLNamedType) : V unit :=
  let memberTypes := getTypes union in
  when (bool_decide (length memberTypes = 0))
    (reportError
       ("Union type " +:+ name union
          +:+ " must define one or more member types.")
       (OneNode (TypeDefinition <$> astNode union))) ;;
  forEachWith memberTypes (validateUnionMembers_memberType union)
    (∅ : gmap string bool).

(** [enumValues.forEach(enumValue => ...)] in [validateEnumValues] *)
Definition validateEnumValues_enumValue (enumType : GraphQLNamedType)
    (enumValue : GraphQLEnumValue) : V unit :=
  let valueName := ev_name enumValue in
  match getEnumValueNodes enumType valueName with
  | Some allNodes =>
      when (bool_decide (1 < length allNodes))
        (reportError
           ("Enum type " +:+ name enumType +:+ " can include value "
              +:+ valueName +:+ " only once.")
           (NodeArray (Some ∘ EnumValueDefinition <$> allNodes)))
  | None => ret tt
  end ;;
  validateName (ev_name enumValue)
    (EnumValueDefinition <$> ev_astNode enumValue) ;;
  when (String.eqb valueName "true" || String.eqb valueName "false"
        || String.eqb valueName "null")
    (reportError
       ("Enum type " +:+ name enumType +:+ " cannot include value: "
          +:+ valueName +:+ ".")
       (OneNode (EnumValueDefinition <$> ev_astNode enumValue))).

Definition validateEnumValues (enumType : GraphQLNamedType) : V unit :=
  let enumValues := getValues enumType in
  when (bool_decide (length enumValues = 0))
    (reportError
       ("Enum type " +:+ name enumType +:+ " must define one or more values.")
       (OneNode (TypeDefinition <$> astNode enumType))) ;;
  forEach enumValues (validateEnumValues_enumValue enumType).

(** [fieldNames.forEach(fieldName => ...)] in [validateInputFields] *)
Definition validateInputFields_field (inputObj : GraphQLNamedType)
    (entry : string * GraphQLInputField) : V unit :=
  let '(fieldName, field) := entry in
  validateName (ifield_name field)
    (InputValueDefinition <$> ifield_astNode field) ;;
  when (negb (isInputType (ifield_type field))
        && negb (refIsInputUnionType (ifield_type field)))
    (reportError
       ("The type of " +:+ name inputObj +:+ "." +:+ fieldName
          +:+ " must be Input Type but got: "
          +:+ toString (ifield_type field) +:+ ".")
       (OneNode (Type_ ∘ ivd_type <$> ifield_astNode field))).

Definition validateInputFields (inputObj : GraphQLNamedType) : V unit :=
  let fieldMap := getInputFields inputObj in
  when (bool_decide (length fieldMap = 0))
    (reportError
       ("Input Object type " +:+ name inputObj
          +:+ " must define one or more fields.")
       (OneNode (TypeDefinition <$> astNode inputObj))) ;;
  forEach fieldMap (validateInputFields_field inputObj).

(** [Object.keys(typeMap).forEach(typeName => ...)] in [validateTypes]; the
    entry is the name with [typeMap[typeName]]. *)
Definition validateTypes_type (entry : string * TypeMapValue) : V unit :=
  let '(typeName, type) := entry in
  match type with
  | NotNamedType rendering node =>
      reportError
        ("Expected GraphQL named type but got: " +:+ rendering +:+ ".")
        (OneNode node)
  | IsNamedType type =>
      when (negb (isIntrospectionType type))
        (validateName (name type) (TypeDefinition <$> astNode type)) ;;
      if isObjectType type then
        validateFields type ;;
        validateObjectInterfaces type
      else if isInterfaceType type then
        validateFields type
      else if isUnionType type then
        validateUnionMembers type
      else if isInputUnionType type then
        validateInputUnionMembers type
      else if isEnumType type then
        validateEnumValues type
      else if isInputObjectType type then
        validateInputFields type
      else ret tt
  end.

Definition validateTypes : V unit :=
  schema ⟵ theSchema ;;
  forEach (getTypeMap schema) validateTypes_type.

(** ** The entry points *)

(** How a call completes: it returns a value or throws an [Error]. *)
Inductive Completion (A : Type) :=
| Normal (value : A)
| Throw (message : string).
Global Arguments Normal {A} value.
Global Arguments Throw {A} message.

(** The result of a call is paired with the argument as the call leaves
    it: the schema with its cache cell written. *)
Definition validateSchema (arg : SchemaArg)
    : Completion (list GraphQLError) * SchemaArg :=
  match arg with
  | NotSchema rendering =>
      (Throw ("Expected " +:+ rendering +:+ " to be a GraphQL schema."), arg)
  | IsSchema schema =>
      match __validationErrors schema with
      | Some errors => (Normal errors, arg)
      | None =>
          let context := newContext schema in
          let '(_, context) :=
            (validateRootTypes ;; validateDirectives ;; validateTypes) context in
          let errors := getErrors context in
          (Normal errors, IsSchema (set__validationErrors schema errors))
      end
  end.

(** The separator of [errors.map(error => error.message).join('\n\n')]. *)
Definition blankLine : string :=
  String "010"%char (String "010"%char EmptyString).

Definition assertValidSchema (arg : SchemaArg) : Completion unit * SchemaArg :=
  match validateSchema arg with
  | (Throw message, arg') => (Throw message, arg')
  | (Normal errors, arg') =>
      if negb (bool_decide (length errors = 0)) then
        (Throw (String.concat blankLine (message <$> errors)), arg')
      else (Normal tt, arg')
  end.

End Validators.

(** ** A sample of the collaborators

    The usual GraphQL reading of the external predicates, used to run the
    validators on concrete schemas: input types are scalars, enums and input
    objects under any wrappers, output types are scalars, objects,
    interfaces, unions and enums under any wrappers; type equality is
    structural; a subtype is an equal type or a non-null version of one; a
    name is refused when it is empty or starts with two underscores. *)

Fixpoint namedKind (ty : GraphQLType) : TypeKind :=
  match ty with
  | Named _ k => k
  | GraphQLList t | GraphQLNonNull t => namedKind t
  end.

Fixpoint sampleEqualType (a b : GraphQLType) : bool :=
  match a, b with
  | Named n k, Named n' k' => String.eqb n n' && bool_decide (k = k')
  | GraphQLList a', GraphQLList b' => sampleEqualType a' b'
  | GraphQLNonNull a', GraphQLNonNull b' => sampleEqualType a' b'
  | _, _ => false
  end.

Definition sampleSubType (sub super : GraphQLType) : bool :=
  sampleEqualType sub super
  || match sub with
     | GraphQLNonNull sub' => sampleEqualType sub' super
     | _ => false
     end.

Fixpoint sampleToString (ty : GraphQLType) : string :=
  match ty with
  | Named n _ => n
  | GraphQLList t => "[" +:+ sampleToString t +:+ "]"
  | GraphQLNonNull t => sampleToString t +:+ "!"
  end.

Definition sampleNameError (name : string) (node : option ASTNode)
    : option GraphQLError :=
  if String.prefix "__" name then
    Some {| message := "Name " +:+ name +:+ " must not begin with __.";
            nodes := omap id [node] |}
  else if String.eqb name "" then
    Some {| message := "Expected a name."; nodes := omap id [node] |}
  else None.

Definition sampleCollaborators : Collaborators :=
  {| isInputType ty :=
       bool_decide (namedKind ty ∈ [Scalar; Enum; InputObject]);
     isOutputType ty :=
       bool_decide (namedKind ty ∈ [Scalar; Object; Interface; Union; Enum]);
     isIntrospectionType t :=
       bool_decide (name t ∈ ["__Schema"; "__Directive"; "__DirectiveLocation";
                              "__Type"; "__Field"; "__InputValue";
                              "__EnumValue"; "__TypeKind"]);
     isEqualType := sampleEqualType;
     isTypeSubTypeOf _ := sampleSubType;
     isValidNameError := sampleNameError;
     toString := sampleToString |}.

(** ** What a validator appends

    Every validator leaves the schema of the context alone and appends to
    its error list a list that does not depend on the errors already there.
    [run m schema] is what [m] appends on a fresh context, [value m schema]
    what it returns. *)

Definition run {A} (m : V A) (sch : GraphQLSchema) : list GraphQLError :=
  _errors (m (newContext sch)).2.

Definition value {A} (m : V A) (sch : GraphQLSchema) : A :=
  (m (newContext sch)).1.

Definition emits {A} (m : V A) (sch : GraphQLSchema) (a : A)
    (out : list GraphQLError) : Prop :=
  ∀ errs, m {| _errors := errs; schema := sch |}
          = (a, {| _errors := errs ++ out; schema := sch |}).

Definition appends {A} (m : V A) : Prop :=
  ∀ sch, ∃ a out, emits m sch a out.


(** ** The diagnostics, by name

    The diagnostics the properties speak of, as the validators build them. *)

Section Diagnostics.
Context `{Collaborators}.

Definition missingQueryRootError (sch : GraphQLSchema) : GraphQLError :=
  {| message := "Query root type must be provided.";
     nodes := match schema_astNode sch with
              | Some node => [SchemaDefinition node]
              | None => []
              end |}.

(** The diagnostic of a root type that is not an Object type; [intro] is the
    text before the rendering of the root. *)
Definition rootKindError (intro : string) (sch : GraphQLSchema)
    (type : GraphQLNamedType) (operation : string) : GraphQLError :=
  {| message := intro +:+ String_ type +:+ ".";
     nodes := option_list (getOperationTypeNode sch type operation) |}.

(** What the check of one root appends. *)
Definition rootErrors (intro : string) (sch : GraphQLSchema)
    (root : option GraphQLNamedType) (operation : string)
    : list GraphQLError :=
  match root with
  | Some type =>
      if isObjectType type then [] else [rootKindError intro sch type operation]
  | None => []
  end.

End Diagnostics.

(** ** The diagnostics of a whole schema *)

(** What the three passes append, in the order the entry point runs them. *)
Definition schemaErrors `{Collaborators} (sch : GraphQLSchema)
    : list GraphQLError :=
  run validateRootTypes sch ++ run validateDirectives sch
    ++ run validateTypes sch.

(** ** Parts of the type dispatcher and of the name validator *)

(** The test of the legacy-name allowlist in [validateName]. *)
Definition isAllowedLegacyName (sch : GraphQLSchema) (name : string) : bool :=
  match __allowedLegacyNames sch with
  | Some allowed => bool_decide (name ∈ allowed)
  | None => false
  end.

(** The dispatch by kind that ends the callback of [validateTypes]. *)
Definition validateTypes_byKind `{Collaborators} (type : GraphQLNamedType)
    : V unit :=
  if isObjectType type then
    validateFields type ;;
    validateObjectInterfaces type
  else if isInterfaceType type then
    validateFields type
  else if isUnionType type then
    validateUnionMembers type
  else if isInputUnionType type then
    validateInputUnionMembers type
  else if isEnumType type then
    validateEnumValues type
  else if isInputObjectType type then
    validateInputFields type
  else ret tt.

(** ** Sample schemas *)

(** A schema with nothing in it. *)
Definition emptySchema : GraphQLSchema :=
  {| getQueryType := None; getMutationType := None;
     getSubscriptionType := None; getTypeMap := []; getDirectives := [];
     __allowedLegacyNames := None; schema_astNode := None;
     __validationErrors := None |}.

(** A named type without payload and without AST nodes. *)
Definition bareType (name : string) (kind : TypeKind) : GraphQLNamedType :=
  mkNamedType name kind None None [] [] [] [] [].

Definition objectType (name : string) (fields : list (string * GraphQLField))
    (interfaces : list GraphQLNamedType) : GraphQLNamedType :=
  mkNamedType name Object None None fields [] interfaces [] [].

Definition interfaceType (name : string)
    (fields : list (string * GraphQLField)) : GraphQLNamedType :=
  mkNamedType name Interface None None fields [] [] [] [].

Definition unionType (name : string) (kind : TypeKind)
    (types : list GraphQLNamedType) : GraphQLNamedType :=
  mkNamedType name kind None None [] [] [] types [].

Definition Int_ : GraphQLType := Named "Int" Scalar.
Definition String__ : GraphQLType := Named "String" Scalar.

Definition argument (name : string) (type : GraphQLType) : GraphQLArgument :=
  {| arg_name := name; arg_type := type; arg_astNode := None |}.

Definition field (name : string) (type : GraphQLType)
    (args : list GraphQLArgument) : string * GraphQLField :=
  (name, {| field_name := name; field_type := type; field_args := args;
            field_astNode := None |}).

(** An object type that carries the name of an introspection type and has a
    field whose name the name grammar refuses. *)
Definition introspectionNamedType : GraphQLNamedType :=
  objectType "__Type" [field "__secret" String__ []] [].

(** ** Loops that remember the names they have met *)

(** What a loop over [l] appends when the element whose name was met before
    (in [seen] or earlier in [l]) contributes [dup] and any other element
    contributes [fresh]. *)
Fixpoint eachOnce {A} (key : A → string) (dup fresh : A → list GraphQLError)
    (seen : list string) (l : list A) : list GraphQLError :=
  match l with
  | [] => []
  | x :: rest =>
      (if bool_decide (key x ∈ seen) then dup x else fresh x)
        ++ eachOnce key dup fresh (key x :: seen) rest
  end.

Section MemberDiagnostics.
Context `{Collaborators}.

Definition unionEmptyError (union : GraphQLNamedType) : GraphQLError :=
  {| message := "Union type " +:+ name union
                  +:+ " must define one or more member types.";
     nodes := option_list (TypeDefinition <$> astNode union) |}.

Definition unionMemberDuplicateError (union memberType : GraphQLNamedType)
    : GraphQLError :=
  {| message := "Union type " +:+ name union +:+ " can only include type "
                  +:+ name memberType +:+ " once.";
     nodes := filterBoolean
                (nullableArray (Type_ ∘ NamedTypeN)
                   (getUnionMemberTypeNodes union (name memberType))) |}.

Definition unionMemberKindError (union memberType : GraphQLNamedType)
    : GraphQLError :=
  {| message := "Union type " +:+ name union
                  +:+ " can only include Object types, "
                  +:+ "it cannot include " +:+ String_ memberType +:+ ".";
     nodes := filterBoolean
                (nullableArray (Type_ ∘ NamedTypeN)
                   (getUnionMemberTypeNodes union (String_ memberType))) |}.

Definition inputUnionEmptyError (inputUnion : GraphQLNamedType)
    : GraphQLError :=
  {| message := "Input Union type " +:+ name inputUnion
                  +:+ " must define one or more member types.";
     nodes := option_list (TypeDefinition <$> astNode inputUnion) |}.

Definition inputUnionMemberDuplicateError
    (inputUnion memberType : GraphQLNamedType) : GraphQLError :=
  {| message := "Input Union type " +:+ name inputUnion
                  +:+ " can only include type " +:+ name memberType
                  +:+ " once.";
     nodes := filterBoolean
                (nullableArray (Type_ ∘ NamedTypeN)
                   (getInputUnionMemberTypeNodes inputUnion
                      (name memberType))) |}.

Definition inputUnionMemberKindError
    (inputUnion memberType : GraphQLNamedType) : GraphQLError :=
  {| message := "Input Union type " +:+ name inputUnion
                  +:+ " can only include Input Object types, "
                  +:+ "it cannot include " +:+ String_ memberType +:+ ".";
     nodes := filterBoolean
                (nullableArray (Type_ ∘ NamedTypeN)
                   (getInputUnionMemberTypeNodes inputUnion
                      (String_ memberType))) |}.

End MemberDiagnostics.

(** A union of an Object type and an InputObject type, as a Union and as
    an InputUnion. *)
Definition mixedMembers : list GraphQLNamedType :=
  [bareType "A" Object; bareType "B" InputObject].
Definition mixedUnion : GraphQLNamedType := unionType "U" Union mixedMembers.

(** ** Repeated elements *)

(** A loop over a collection skips the element whose name occurs earlier in
    the collection: the repeated element [a] contributes [report a] and
    nothing else, and the diagnostics of all the other elements are those of
    the collection without [a]. *)
Definition skipsRepeated {A} (key : A → string) (loop : list A → V unit)
    (report : A → list GraphQLError) (sch : GraphQLSchema) : Prop :=
  ∀ l1 a l2, key a ∈ key <$> l1 →
    ∃ before after,
      run (loop (l1 ++ a :: l2)) sch = before ++ report a ++ after
      ∧ run (loop (l1 ++ l2)) sch = before ++ after.

Section DuplicateDiagnostics.
Context `{Collaborators}.

Definition directiveArgDuplicateError (directive : GraphQLDirective)
    (arg : GraphQLArgument) : GraphQLError :=
  {| message := "Argument @" +:+ d_name directive +:+ "(" +:+ arg_name arg
                  +:+ ":) can only be defined once.";
     nodes := filterBoolean
                (NodeArray (Some ∘ InputValueDefinition
                   <$> getAllDirectiveArgNodes directive (arg_name arg))) |}.

Definition interfaceDuplicateError (object iface : GraphQLNamedType)
    : GraphQLError :=
  {| message := "Type " +:+ name object +:+ " can only implement "
                  +:+ name iface +:+ " once.";
     nodes := filterBoolean
                (NodeArray (Some ∘ Type_ ∘ NamedTypeN
                   <$> getAllImplementsInterfaceNodes object iface)) |}.

Definition fieldDuplicateError (type : GraphQLNamedType) (fieldName : string)
    : GraphQLError :=
  {| message := "Field " +:+ name type +:+ "." +:+ fieldName
                  +:+ " can only be defined once.";
     nodes := filterBoolean
                (NodeArray (Some ∘ FieldDefinition
                   <$> getAllFieldNodes type fieldName)) |}.

Definition fieldArgDuplicateError (type : GraphQLNamedType)
    (fieldName : string) (arg : GraphQLArgument) : GraphQLError :=
  {| message := "Field argument " +:+ name type +:+ "." +:+ fieldName +:+ "("
                  +:+ arg_name arg +:+ ":) can only be defined once.";
     nodes := filterBoolean
                (NodeArray (Some ∘ InputValueDefinition
                   <$> getAllFieldArgNodes type fieldName (arg_name arg))) |}.

Definition fieldArgTypeError (type : GraphQLNamedType) (fieldName : string)
    (arg : GraphQLArgument) : GraphQLError :=
  {| message := "The type of " +:+ name type +:+ "." +:+ fieldName +:+ "("
                  +:+ arg_name arg +:+ ":) must be Input Type but got: "
                  +:+ toString (arg_type arg) +:+ ".";
     nodes := option_list
                (Type_ <$> getFieldArgTypeNode type fieldName (arg_name arg)) |}.

Definition enumValueDuplicateError (enumType : GraphQLNamedType)
    (enumValue : GraphQLEnumValue) : GraphQLError :=
  {| message := "Enum type " +:+ name enumType +:+ " can include value "
                  +:+ ev_name enumValue +:+ " only once.";
     nodes := EnumValueDefinition
                <$> default [] (getEnumValueNodes enumType (ev_name enumValue)) |}.

Definition enumReservedNameError (enumType : GraphQLNamedType)
    (enumValue : GraphQLEnumValue) : GraphQLError :=
  {| message := "Enum type " +:+ name enumType +:+ " cannot include value: "
                  +:+ ev_name enumValue +:+ ".";
     nodes := option_list (EnumValueDefinition <$> ev_astNode enumValue) |}.

(** An enum value is defined more than once when more than one value node of
    the enum's AST node carries its name. *)
Definition isRedefinedEnumValue (enumType : GraphQLNamedType)
    (enumValue : GraphQLEnumValue) : bool :=
  bool_decide
    (1 < length (default [] (getEnumValueNodes enumType (ev_name enumValue)))).

Definition isReservedEnumValueName (valueName : string) : bool :=
  bool_decide (valueName ∈ ["true"; "false"; "null"]).

End DuplicateDiagnostics.

(** An argument [x] whose type is an Object type, not an input type. *)
Definition outputTypedArg : GraphQLArgument := argument "x" (Named "O" Object).

(** A directive [@d(x: O, x: O)]. *)
Definition repeatingDirective : GraphQLDirective :=
  {| d_name := "d"; d_args := [outputTypedArg; outputTypedArg];
     d_astNode := None |}.

(** ** Interface conformance *)

Section ConformanceDiagnostics.
Context `{Collaborators}.

Definition fieldTypeMismatchError (object iface : GraphQLNamedType)
    (fieldName : string) (ifaceField objectField : GraphQLField)
    : GraphQLError :=
  {| message := "Interface field " +:+ name iface +:+ "." +:+ fieldName
                  +:+ " expects type " +:+ toString (field_type ifaceField)
                  +:+ " but " +:+ name object +:+ "." +:+ fieldName
                  +:+ " is type " +:+ toString (field_type objectField)
                  +:+ ".";
     nodes := filterBoolean
                (NodeArray [Type_ <$> getFieldTypeNode iface fieldName;
                            Type_ <$> getFieldTypeNode object fieldName]) |}.

Definition argTypeMismatchError (object iface : GraphQLNamedType)
    (fieldName : string) (ifaceArg objectArg : GraphQLArgument)
    : GraphQLError :=
  {| message := "Interface field argument " +:+ name iface +:+ "."
                  +:+ fieldName +:+ "(" +:+ arg_name ifaceArg
                  +:+ ":) expects type "
                  +:+ toString (arg_type ifaceArg) +:+ " but "
                  +:+ name object +:+ "." +:+ fieldName +:+ "("
                  +:+ arg_name ifaceArg +:+ ":) is type "
                  +:+ toString (arg_type objectArg) +:+ ".";
     nodes := filterBoolean
                (NodeArray
                   [Type_ <$> getFieldArgTypeNode iface fieldName
                                (arg_name ifaceArg);
                    Type_ <$> getFieldArgTypeNode object fieldName
                                (arg_name ifaceArg)]) |}.

Definition extraRequiredArgError (object iface : GraphQLNamedType)
    (fieldName : string) (objectArg : GraphQLArgument) : GraphQLError :=
  {| message := "Object field argument " +:+ name object +:+ "."
                  +:+ fieldName +:+ "(" +:+ arg_name objectArg
                  +:+ ":) is of required type "
                  +:+ toString (arg_type objectArg)
                  +:+ " but is not also provided by the Interface field "
                  +:+ name iface +:+ "." +:+ fieldName +:+ ".";
     nodes := filterBoolean
                (NodeArray
                   [Type_ <$> getFieldArgTypeNode object fieldName
                                (arg_name objectArg);
                    FieldDefinition <$> getFieldNode iface fieldName]) |}.

End ConformanceDiagnostics.

(** [interface I { f(a: Int): String }] *)
Definition sampleI : GraphQLNamedType :=
  interfaceType "I" [field "f" String__ [argument "a" Int_]].

(** [type O implements I { f(a: Int, b: Int = 0): String }]; the default
    value of [b] is not a property the validator reads. *)
Definition sampleO : GraphQLNamedType :=
  objectType "O" [field "f" String__ [argument "a" Int_; argument "b" Int_]]
    [sampleI].

(** [type O2 implements I { f(a: Int, b: Int!): String }] *)
Definition sampleO2 : GraphQLNamedType :=
  objectType "O2"
    [field "f" String__ [argument "a" Int_; argument "b" (GraphQLNonNull Int_)]]
    [sampleI].

(** [type O3 implements I { f(a: Int!): String! }] *)
Definition sampleO3 : GraphQLNamedType :=
  objectType "O3"
    [field "f" (GraphQLNonNull String__) [argument "a" (GraphQLNonNull Int_)]]
    [sampleI].

(** A schema validated before and found valid: its cache cell holds the
    empty list, although it has no query root. *)
Definition validatedSchema : GraphQLSchema :=
  set__validationErrors emptySchema [].

(** A schema whose mutation root is an enum. *)
Definition enumMutationSchema : GraphQLSchema :=
  {| getQueryType := Some (bareType "Query" Object);
     getMutationType := Some (bareType "E" Enum);
     getSubscriptionType := None; getTypeMap := []; getDirectives := [];
     __allowedLegacyNames := None; schema_astNode := None;
     __validationErrors := None |}.

(** ** Acceptance of a name *)

(** The name check reports nothing: the name is in the legacy allowlist of
    the schema or the name grammar accepts it. *)
Definition nameAccepted `{Collaborators} (sch : GraphQLSchema) (name : string)
    (node : option ASTNode) : Prop :=
  isAllowedLegacyName sch name = true ∨ isValidNameError name node = None.

(** The test of the type of an argument or of an input field: the type is
    accepted when it classifies as an input type or is an input union. *)
Definition acceptedAsInput `{Collaborators} (ty : GraphQLType) : bool :=
  isInputType ty || refIsInputUnionType ty.

(** An argument passes the checks of its name and of its type. *)
Definition argumentAccepted `{Collaborators} (sch : GraphQLSchema)
    (arg : GraphQLArgument) : Prop :=
  nameAccepted sch (arg_name arg) (InputValueDefinition <$> arg_astNode arg)
  ∧ acceptedAsInput (arg_type arg) = true.

(** The diagnostic of a field whose type is not an output type. *)
Definition fieldOutputTypeError `{Collaborators} (type : GraphQLNamedType)
    (fieldName : string) (f : GraphQLField) : GraphQLError :=
  {| message := "The type of " +:+ name type +:+ "." +:+ fieldName
                  +:+ " must be Output Type but got: "
                  +:+ toString (field_type f) +:+ ".";
     nodes := option_list (Type_ <$> getFieldTypeNode type fieldName) |}.

(** ** More sample types *)

(** The field definition node [f: String]. *)
Definition sampleFieldNode : FieldDefinitionNode :=
  {| fd_name := "f"; fd_arguments := None;
     fd_type := NamedTypeN {| ntn_name := "String" |} |}.

(** The node of a type definition or extension that defines [f]. *)
Definition sampleTypeNode : TypeDefinitionNode :=
  {| td_interfaces := None; td_fields := Some [sampleFieldNode];
     td_types := None; td_values := None |}.

(** [type T { f: String }] together with [extend type T { f: String }]. *)
Definition extendedType : GraphQLNamedType :=
  mkNamedType "T" Object (Some sampleTypeNode) (Some [sampleTypeNode])
    [field "f" String__ []] [] [] [] [].

(** An object that takes over the fields of [sampleI] as they are. *)
Definition sampleP : GraphQLNamedType :=
  objectType "P" (getFields sampleI) [sampleI].

(** A schema without query root whose mutation root is an enum: two
    diagnostics. *)
Definition twoErrorsSchema : GraphQLSchema :=
  {| getQueryType := None;
     getMutationType := Some (bareType "E" Enum);
     getSubscriptionType := None; getTypeMap := []; getDirectives := [];
     __allowedLegacyNames := None; schema_astNode := None;
     __validationErrors := None |}.
(** * Properties *)

Lemma emits_run {A} (m : V A) sch a out :
  emits m sch a out → run m sch = out ∧ value m sch = a.
Proof.
  intros E. unfold run, value, newContext. rewrite (E []). done.
Qed.

Lemma appends_emits {A} (m : V A) sch :
  appends m → emits m sch (value m sch) (run m sch).
Proof.
  intros Hm. destruct (Hm sch) as (a & out & E).
  destruct (emits_run _ _ _ _ E) as [-> ->]. exact E.
Qed.

Lemma emits_ret {A} (a : A) sch : emits (ret a) sch a [].
Proof. intros errs. unfold ret. by rewrite app_nil_r. Qed.

Lemma emits_bind {A B} (m : V A) (k : A → V B) sch a b o1 o2 :
  emits m sch a o1 → emits (k a) sch b o2 → emits (bind m k) sch b (o1 ++ o2).
Proof.
  intros E1 E2 errs. unfold bind. rewrite E1, E2. by rewrite app_assoc.
Qed.

Lemma emits_theSchema sch : emits theSchema sch sch [].
Proof. intros errs. unfold theSchema. simpl. by rewrite app_nil_r. Qed.

Lemma emits_addError e sch : emits (addError e) sch tt [e].
Proof. intros errs. done. Qed.

Lemma emits_reportError msg ns sch :
  emits (reportError msg ns) sch tt
    [{| message := msg; nodes := filterBoolean ns |}].
Proof. apply emits_addError. Qed.

Lemma appends_ret {A} (a : A) : appends (ret a).
Proof. intros sch. eexists _, _. apply emits_ret. Qed.

Lemma appends_bind {A B} (m : V A) (k : A → V B) :
  appends m → (∀ a, appends (k a)) → appends (bind m k).
Proof.
  intros Hm Hk sch. destruct (Hm sch) as (a & o1 & E1).
  destruct (Hk a sch) as (b & o2 & E2).
  eexists _, _. eapply emits_bind; eauto.
Qed.

Lemma appends_theSchema : appends theSchema.
Proof. intros sch. eexists _, _. apply emits_theSchema. Qed.

Lemma appends_addError e : appends (addError e).
Proof. intros sch. eexists _, _. apply emits_addError. Qed.

Lemma appends_reportError msg ns : appends (reportError msg ns).
Proof. apply appends_addError. Qed.

Lemma appends_when c m : appends m → appends (when c m).
Proof. intros Hm. destruct c; [exact Hm | apply appends_ret]. Qed.

Lemma appends_forEach {A} (l : list A) body :
  (∀ x, appends (body x)) → appends (forEach l body).
Proof.
  intros Hb. induction l as [|x l IH]; simpl.
  - apply appends_ret.
  - apply appends_bind; [apply Hb | intros _; exact IH].
Qed.

Lemma appends_forEachWith {A S} (l : list A) (body : A → S → V S) s :
  (∀ x s, appends (body x s)) → appends (forEachWith l body s).
Proof.
  intros Hb. revert s. induction l as [|x l IH]; intros s; simpl.
  - apply appends_ret.
  - apply appends_bind; [apply Hb | intros s'; apply IH].
Qed.

Create HintDb appends discriminated.
#[global] Hint Resolve appends_ret appends_theSchema appends_addError
  appends_reportError appends_when appends_forEach appends_forEachWith
  : appends.

(** Splits a validator along its binds, conditionals and matches. *)
Ltac appends_step :=
  match goal with
  | |- appends (bind _ _) => apply appends_bind; [| intros ?]
  | |- appends (when _ _) => apply appends_when
  | |- appends (forEach _ _) => apply appends_forEach; intros ?
  | |- appends (forEachWith _ _ _) => apply appends_forEachWith; intros ? ?
  | |- appends (if ?c then _ else _) => destruct c
  | |- appends (match ?x with _ => _ end) => destruct x
  | |- appends (let '(_, _) := ?x in _) => destruct x
  | |- appends _ => solve [auto with appends]
  end.

Ltac solve_appends := repeat (cbv beta; appends_step).

(** [run] and [value] along the structure of a validator. *)

Lemma run_ret {A} (a : A) sch : run (ret a) sch = [].
Proof. done. Qed.

Lemma run_bind {A B} (m : V A) (k : A → V B) sch :
  appends m → (∀ a, appends (k a)) →
  run (bind m k) sch = run m sch ++ run (k (value m sch)) sch.
Proof.
  intros Hm Hk.
  pose proof (appends_emits m sch Hm) as E1.
  pose proof (appends_emits (k (value m sch)) sch (Hk _)) as E2.
  by destruct (emits_run _ _ _ _ (emits_bind _ _ _ _ _ _ _ E1 E2)).
Qed.

Lemma value_bind {A B} (m : V A) (k : A → V B) sch :
  appends m → (∀ a, appends (k a)) →
  value (bind m k) sch = value (k (value m sch)) sch.
Proof.
  intros Hm Hk.
  pose proof (appends_emits m sch Hm) as E1.
  pose proof (appends_emits (k (value m sch)) sch (Hk _)) as E2.
  by destruct (emits_run _ _ _ _ (emits_bind _ _ _ _ _ _ _ E1 E2)).
Qed.

Lemma run_reportError msg ns sch :
  run (reportError msg ns) sch
  = [{| message := msg; nodes := filterBoolean ns |}].
Proof. done. Qed.

Lemma run_when c m sch : run (when c m) sch = if c then run m sch else [].
Proof. by destruct c. Qed.

Lemma run_forEach_cons {A} (x : A) l body sch :
  (∀ x, appends (body x)) →
  run (forEach (x :: l) body) sch = run (body x) sch ++ run (forEach l body) sch.
Proof.
  intros Hb. simpl. rewrite run_bind; auto with appends.
Qed.

Lemma run_forEach {A} (l : list A) body sch :
  (∀ x, appends (body x)) →
  run (forEach l body) sch = flat_map (λ x, run (body x) sch) l.
Proof.
  intros Hb. induction l as [|x l IH]; [done|].
  rewrite run_forEach_cons by done. simpl. by rewrite IH.
Qed.

Lemma run_forEach_app {A} (l1 l2 : list A) body sch :
  (∀ x, appends (body x)) →
  run (forEach (l1 ++ l2) body) sch
  = run (forEach l1 body) sch ++ run (forEach l2 body) sch.
Proof.
  intros Hb. rewrite !run_forEach by done. apply flat_map_app.
Qed.

Section Appends.
Context `{Collaborators}.

Lemma validateName_appends n a : appends (validateName n a).
Proof. unfold validateName. solve_appends. Qed.
Hint Resolve validateName_appends : appends.

Lemma validateRootTypes_appends : appends validateRootTypes.
Proof. unfold validateRootTypes. solve_appends. Qed.

Lemma validateDirectives_arg_appends d a s :
  appends (validateDirectives_arg d a s).
Proof. unfold validateDirectives_arg. solve_appends. Qed.
Hint Resolve validateDirectives_arg_appends : appends.

Lemma validateDirectives_directive_appends d :
  appends (validateDirectives_directive d).
Proof. unfold validateDirectives_directive. solve_appends. Qed.
Hint Resolve validateDirectives_directive_appends : appends.

Lemma validateDirectives_appends : appends validateDirectives.
Proof. unfold validateDirectives. solve_appends. Qed.

Lemma validateFields_arg_appends t f a s :
  appends (validateFields_arg t f a s).
Proof. unfold validateFields_arg. solve_appends. Qed.
Hint Resolve validateFields_arg_appends : appends.

Lemma validateFields_field_appends t e : appends (validateFields_field t e).
Proof. unfold validateFields_field. solve_appends. Qed.
Hint Resolve validateFields_field_appends : appends.

Lemma validateFields_appends t : appends (validateFields t).
Proof. unfold validateFields. solve_appends. Qed.
Hint Resolve validateFields_appends : appends.

Lemma validateObjectImplementsInterface_ifaceArg_appends o i f fo a :
  appends (validateObjectImplementsInterface_ifaceArg o i f fo a).
Proof. unfold validateObjectImplementsInterface_ifaceArg. solve_appends. Qed.
Hint Resolve validateObjectImplementsInterface_ifaceArg_appends : appends.

Lemma validateObjectImplementsInterface_objectArg_appends o i f fi a :
  appends (validateObjectImplementsInterface_objectArg o i f fi a).
Proof. unfold validateObjectImplementsInterface_objectArg. solve_appends. Qed.
Hint Resolve validateObjectImplementsInterface_objectArg_appends : appends.

Lemma validateObjectImplementsInterface_field_appends o i e :
  appends (validateObjectImplementsInterface_field o i e).
Proof. unfold validateObjectImplementsInterface_field. solve_appends. Qed.
Hint Resolve validateObjectImplementsInterface_field_appends : appends.

Lemma validateObjectImplementsInterface_appends o i :
  appends (validateObjectImplementsInterface o i).
Proof. unfold validateObjectImplementsInterface. solve_appends. Qed.
Hint Resolve validateObjectImplementsInterface_appends : appends.

Lemma validateObjectInterfaces_iface_appends o i s :
  appends (validateObjectInterfaces_iface o i s).
Proof. unfold validateObjectInterfaces_iface. solve_appends. Qed.
Hint Resolve validateObjectInterfaces_iface_appends : appends.

Lemma validateObjectInterfaces_appends o :
  appends (validateObjectInterfaces o).
Proof. unfold validateObjectInterfaces. solve_appends. Qed.
Hint Resolve validateObjectInterfaces_appends : appends.

Lemma validateInputUnionMembers_memberType_appends u m s :
  appends (validateInputUnionMembers_memberType u m s).
Proof. unfold validateInputUnionMembers_memberType. solve_appends. Qed.
Hint Resolve validateInputUnionMembers_memberType_appends : appends.

Lemma validateInputUnionMembers_appends u :
  appends (validateInputUnionMembers u).
Proof. unfold validateInputUnionMembers. solve_appends. Qed.
Hint Resolve validateInputUnionMembers_appends : appends.

Lemma validateUnionMembers_memberType_appends u m s :
  appends (validateUnionMembers_memberType u m s).
Proof. unfold validateUnionMembers_memberType. solve_appends. Qed.
Hint Resolve validateUnionMembers_memberType_appends : appends.

Lemma validateUnionMembers_appends u : appends (validateUnionMembers u).
Proof. unfold validateUnionMembers. solve_appends. Qed.
Hint Resolve validateUnionMembers_appends : appends.

Lemma validateEnumValues_enumValue_appends t v :
  appends (validateEnumValues_enumValue t v).
Proof. unfold validateEnumValues_enumValue. solve_appends. Qed.
Hint Resolve validateEnumValues_enumValue_appends : appends.

Lemma validateEnumValues_appends t : appends (validateEnumValues t).
Proof. unfold validateEnumValues. solve_appends. Qed.
Hint Resolve validateEnumValues_appends : appends.

Lemma validateInputFields_field_appends t e :
  appends (validateInputFields_field t e).
Proof. unfold validateInputFields_field. solve_appends. Qed.
Hint Resolve validateInputFields_field_appends : appends.

Lemma validateInputFields_appends t : appends (validateInputFields t).
Proof. unfold validateInputFields. solve_appends. Qed.
Hint Resolve validateInputFields_appends : appends.

Lemma validateTypes_type_appends e : appends (validateTypes_type e).
Proof. unfold validateTypes_type. solve_appends. Qed.
Hint Resolve validateTypes_type_appends : appends.

Lemma validateTypes_appends : appends validateTypes.
Proof. unfold validateTypes. solve_appends. Qed.

End Appends.

#[global] Hint Resolve validateName_appends validateRootTypes_appends
  validateDirectives_arg_appends validateDirectives_directive_appends
  validateDirectives_appends validateFields_arg_appends
  validateFields_field_appends validateFields_appends
  validateObjectImplementsInterface_ifaceArg_appends
  validateObjectImplementsInterface_objectArg_appends
  validateObjectImplementsInterface_field_appends
  validateObjectImplementsInterface_appends
  validateObjectInterfaces_iface_appends validateObjectInterfaces_appends
  validateInputUnionMembers_memberType_appends
  validateInputUnionMembers_appends validateUnionMembers_memberType_appends
  validateUnionMembers_appends validateEnumValues_enumValue_appends
  validateEnumValues_appends validateInputFields_field_appends
  validateInputFields_appends validateTypes_type_appends
  validateTypes_appends : appends.

(** Rewrites [run] along binds whose parts append. *)
Ltac appends_side :=
  lazymatch goal with
  | |- appends _ => solve_appends
  | |- ∀ _, _ => intros ?; solve_appends
  end.

Ltac run_binds :=
  repeat (rewrite run_bind by appends_side); cbv beta.

Lemma value_theSchema sch : value theSchema sch = sch.
Proof. done. Qed.

Lemma run_theSchema sch : run theSchema sch = [].
Proof. done. Qed.

(** ** Loops that remember names *)

Lemma has_empty k : has ∅ k = false.
Proof. unfold has. by rewrite lookup_empty. Qed.

Lemma has_insert (s : gmap string bool) k k' :
  has (<[k := true]> s) k' = bool_decide (k' = k) || has s k'.
Proof.
  unfold has. destruct (decide (k' = k)) as [->|Hne].
  - rewrite lookup_insert_eq. by rewrite bool_decide_eq_true_2.
  - rewrite lookup_insert_ne by done. by rewrite bool_decide_eq_false_2.
Qed.

Lemma run_forEachWith_cons {A S} (x : A) l (body : A → S → V S) s sch :
  (∀ x s, appends (body x s)) →
  run (forEachWith (x :: l) body s) sch
  = run (body x s) sch ++ run (forEachWith l body (value (body x s) sch)) sch.
Proof.
  intros Hb. simpl. rewrite run_bind; auto with appends.
Qed.

Lemma eachOnce_ext {A} (key : A → string) dup fresh seen seen' (l : list A) :
  (∀ k, k ∈ seen ↔ k ∈ seen') →
  eachOnce key dup fresh seen l = eachOnce key dup fresh seen' l.
Proof.
  revert seen seen'. induction l as [|x l IH]; intros seen seen' Hs; [done|].
  simpl. rewrite (bool_decide_ext _ _ (Hs (key x))). f_equal.
  apply IH. intros k. rewrite !elem_of_cons. by rewrite Hs.
Qed.

Lemma eachOnce_app {A} (key : A → string) dup fresh seen (l1 l2 : list A) :
  eachOnce key dup fresh seen (l1 ++ l2)
  = eachOnce key dup fresh seen l1
    ++ eachOnce key dup fresh (reverse (key <$> l1) ++ seen) l2.
Proof.
  revert seen. induction l1 as [|x l1 IH]; intros seen; [done|].
  simpl. rewrite IH, <- app_assoc. do 2 f_equal.
  rewrite reverse_cons, <- app_assoc. done.
Qed.

Lemma eachOnce_fresh {A} (key : A → string) dup fresh seen (l : list A) :
  NoDup (key <$> l) → (∀ x, x ∈ l → key x ∉ seen) →
  eachOnce key dup fresh seen l = flat_map fresh l.
Proof.
  revert seen. induction l as [|x l IH]; intros seen Hnd Hs; [done|].
  simpl. rewrite fmap_cons in Hnd. apply NoDup_cons in Hnd as [Hx Hnd].
  rewrite bool_decide_eq_false_2 by (apply Hs; left). f_equal.
  apply IH; [done|]. intros y Hy. rewrite elem_of_cons. intros [Heq|Hin].
  - apply Hx. rewrite <- Heq. by apply list_elem_of_fmap_2.
  - by apply (Hs y); [right|].
Qed.

Lemma run_forEachWith_names {A} (key : A → string)
    (body : A → gmap string bool → V (gmap string bool))
    (dup fresh : A → list GraphQLError) sch :
  (∀ x s, appends (body x s)) →
  (∀ x s, run (body x s) sch = if has s (key x) then dup x else fresh x) →
  (∀ x s k, has (value (body x s) sch) k = bool_decide (k = key x) || has s k) →
  ∀ l s seen, (∀ k, has s k = bool_decide (k ∈ seen)) →
  run (forEachWith l body s) sch = eachOnce key dup fresh seen l.
Proof.
  intros Hb Hrun Hval. induction l as [|x l IH]; intros s seen Hs; [done|].
  rewrite run_forEachWith_cons by done. simpl.
  rewrite Hrun, Hs. f_equal. apply IH. intros k.
  rewrite Hval, Hs. apply eq_true_iff_eq.
  rewrite orb_true_iff, !bool_decide_eq_true, elem_of_cons. done.
Qed.

Lemma eachOnce_repeated {A} (key : A → string) dup fresh (l1 : list A) a l2 :
  key a ∈ key <$> l1 →
  eachOnce key dup fresh [] (l1 ++ a :: l2)
  = eachOnce key dup fresh [] l1 ++ dup a
    ++ eachOnce key dup fresh (reverse (key <$> l1)) l2
  ∧ eachOnce key dup fresh [] (l1 ++ l2)
    = eachOnce key dup fresh [] l1
      ++ eachOnce key dup fresh (reverse (key <$> l1)) l2.
Proof.
  intros Ha. rewrite !eachOnce_app, !app_nil_r. split; [|done].
  f_equal. simpl.
  rewrite bool_decide_eq_true_2 by (by apply elem_of_reverse).
  f_equal. apply eachOnce_ext. intros k. rewrite elem_of_cons.
  split; [intros [->|?]; [by apply elem_of_reverse | done] | by right].
Qed.

(** A loop that remembers names skips the repeated element when the
    contribution of an element met before is [report]. *)
Lemma skipsRepeated_names {A} (key : A → string)
    (body : A → gmap string bool → V (gmap string bool))
    (report fresh : A → list GraphQLError) sch :
  (∀ x s, appends (body x s)) →
  (∀ x s, run (body x s) sch = if has s (key x) then report x else fresh x) →
  (∀ x s k, has (value (body x s) sch) k = bool_decide (k = key x) || has s k) →
  skipsRepeated key (λ l, forEachWith l body ∅) report sch.
Proof.
  intros Hb Hrun Hval l1 a l2 Ha.
  assert (Hl : ∀ l, run (forEachWith l body ∅) sch
                    = eachOnce key report fresh [] l).
  { intros l. eapply run_forEachWith_names; [done | done | done |].
    intros k. rewrite has_empty. symmetry. apply bool_decide_eq_false_2.
    by intros ?%elem_of_nil. }
  rewrite !Hl.
  destruct (eachOnce_repeated key report fresh l1 a l2 Ha) as [E1 E2].
  eexists _, _. split; [exact E1 | exact E2].
Qed.

(** ** The suggestion-list formatter *)

Module OrListFacts.
Import OrList.

Lemma append_cons (ch : ascii) (a b : string) :
  String ch a +:+ b = String ch (a +:+ b).
Proof. reflexivity. Qed.

Lemma append_nil_l (a : string) : "" +:+ a = a.
Proof. reflexivity. Qed.

Lemma append_assoc (a b c : string) : (a +:+ b) +:+ c = a +:+ (b +:+ c).
Proof.
  induction a as [|ch a IH]; [done|]. by rewrite !append_cons, IH.
Qed.

Lemma append_nil_r (a : string) : a +:+ "" = a.
Proof.
  induction a as [|ch a IH]; [done|]. by rewrite append_cons, IH.
Qed.

Lemma reduceFrom_tailRendering (n : nat) (sep acc : string) (index : nat)
    (rest : list string) :
  index + length rest = n →
  reduceFrom (λ list quoted index,
      ((list +:+ sep)
         +:+ (if bool_decide (index = n - 1) then "or " else ""))
        +:+ quoted) acc index rest
  = acc +:+ tailRendering sep rest.
Proof.
  revert acc index. induction rest as [|y r IH]; intros acc index Hn.
  - simpl. by rewrite append_nil_r.
  - simpl in Hn. simpl. rewrite IH by lia.
    rewrite !append_assoc. do 2 f_equal.
    destruct r as [|z r]; simpl in *.
    + rewrite bool_decide_eq_true_2 by lia. done.
    + rewrite bool_decide_eq_false_2 by lia. done.
Qed.

Lemma concat_cons2 (sep x y : string) (l : list string) :
  String.concat sep (x :: y :: l) = x +:+ sep +:+ String.concat sep (y :: l).
Proof. reflexivity. Qed.

Lemma concat_markLast (sep x : string) (rest : list string) :
  rest ≠ [] →
  String.concat sep (markLast (x :: rest)) = x +:+ tailRendering sep rest.
Proof.
  revert x. induction rest as [|y r IH]; intros x Hne; [done|].
  destruct r as [|z r].
  - simpl. by rewrite append_nil_r.
  - change (markLast (x :: y :: z :: r)) with (x :: markLast (y :: z :: r)).
    specialize (IH y ltac:(done)).
    destruct (markLast (y :: z :: r)) as [|w l] eqn:E.
    { simpl in E. destruct r; discriminate. }
    rewrite concat_cons2, IH.
    change (tailRendering sep (y :: z :: r))
      with (sep +:+ "" +:+ y +:+ tailRendering sep (z :: r)).
    by rewrite append_nil_l.
Qed.

Lemma orList_rendering (items : list string) :
  items ≠ [] → orList items = Some (rendering (separator items) items).
Proof.
  intros Hne. unfold orList, rendering, separator.
  destruct (take MAX_LENGTH items) as [|x rest] eqn:E.
  { destruct items; [done | discriminate]. }
  unfold reduce.
  rewrite (reduceFrom_tailRendering (length (x :: rest))) by (simpl; lia).
  f_equal. destruct rest as [|y r].
  - simpl. by rewrite append_nil_r.
  - rewrite (bool_decide_eq_true_2 (2 ≤ _)%nat) by (simpl; lia).
    by rewrite concat_markLast.
Qed.

(** C9, as the specification states it, fails on two items: the code joins
    them with a single space, not with a comma. *)
Lemma orList_two_items_not_comma_joined :
  orList ["A"; "B"] = Some "A or B"
  ∧ orList_spec ["A"; "B"] = "A, or B"
  ∧ orList ["A"; "B"] ≠ Some (orList_spec ["A"; "B"]).
Proof. split; [done | split; [done | discriminate]]. Qed.

(** C9 (amended): for every non-empty list of candidate names, [orList]
    returns the rendering of at most the first five items, the last one
    prefixed by "or " exactly when at least two items remain after the
    truncation, joined by ", " when more than two items remain and by a
    single space when exactly two remain; [A; B; C] gives "A, B, or C" and
    a single item gives the item itself. *)
Theorem orList_renders_first_five (items : list string) :
  items ≠ [] →
  orList items = Some (rendering (separator items) items)
  ∧ separator items
    = (if bool_decide (2 < length (take MAX_LENGTH items))%nat then ", " else " ")
  ∧ (length (take MAX_LENGTH items) ≤ 5)%nat
  ∧ orList ["A"; "B"; "C"] = Some "A, B, or C"
  ∧ (∀ x, orList [x] = Some x).
Proof.
  intros Hne. split; [by apply orList_rendering|].
  split; [done|]. split.
  - rewrite length_take. unfold MAX_LENGTH. lia.
  - split; [done|]. intros x. done.
Qed.

Lemma orList_renders_first_five_witness :
  ["A"; "B"; "C"; "D"; "E"; "F"] ≠ []
  ∧ orList ["A"; "B"; "C"; "D"; "E"; "F"] = Some "A, B, C, D, or E".
Proof.
  split; [discriminate|].
  destruct (orList_renders_first_five ["A"; "B"; "C"; "D"; "E"; "F"])
    as [E _]; [discriminate|].
  rewrite E. reflexivity.
Defined.

(** C10: [orList] is partial: on the empty list its [reduce] has no initial
    accumulator and throws, so no value is returned; on every non-empty
    list it returns a value. *)
Theorem orList_partial_on_empty :
  orList [] = None
  ∧ (∀ items, items ≠ [] → ∃ s, orList items = Some s)
  ∧ (∀ items, is_Some (orList items) ↔ items ≠ []).
Proof.
  split; [done|]. split.
  - intros items Hne. eexists. by apply orList_rendering.
  - intros items. split.
    + intros [s Hs] ->. discriminate.
    + intros Hne. eexists. by apply orList_rendering.
Qed.

End OrListFacts.

(** ** Root types *)

Section RootTypes.
Context `{Collaborators}.

Lemma filterBoolean_OneNode (n : option ASTNode) :
  filterBoolean (OneNode n) = option_list n.
Proof. by destruct n. Qed.

(** C6: the diagnostics of the root types are those of the query root,
    then of the mutation root, then of the subscription root.  A schema
    without query root gets the single diagnostic "Query root type must be
    provided." located at the schema's own node; a root that is present and
    not of Object kind gets one diagnostic citing it; an absent mutation or
    subscription root gets none. *)
Theorem validateRootTypes_diagnostics (sch : GraphQLSchema) :
  run validateRootTypes sch
  = match getQueryType sch with
    | None => [missingQueryRootError sch]
    | Some queryType =>
        if isObjectType queryType then []
        else [rootKindError "Query root type must be Object type, it cannot be "
                sch queryType "query"]
    end
    ++ rootErrors
         "Mutation root type must be Object type if provided, it cannot be "
         sch (getMutationType sch) "mutation"
    ++ rootErrors
         "Subscription root type must be Object type if provided, it cannot be "
         sch (getSubscriptionType sch) "subscription".
Proof.
  unfold validateRootTypes. run_binds.
  rewrite run_theSchema, value_theSchema. simpl.
  f_equal; [|f_equal].
  - destruct (getQueryType sch) as [t|].
    + rewrite run_when. destruct (isObjectType t); [done|]. simpl.
      rewrite run_reportError. unfold rootKindError. simpl.
      by rewrite filterBoolean_OneNode.
    + rewrite run_reportError. unfold missingQueryRootError. simpl.
      by destruct (schema_astNode sch).
  - unfold rootErrors. destruct (getMutationType sch) as [t|]; [|done].
    rewrite run_when. destruct (isObjectType t); [done|]. simpl.
    rewrite run_reportError. unfold rootKindError. simpl.
    by rewrite filterBoolean_OneNode.
  - unfold rootErrors. destruct (getSubscriptionType sch) as [t|]; [|done].
    rewrite run_when. destruct (isObjectType t); [done|]. simpl.
    rewrite run_reportError. unfold rootKindError. simpl.
    by rewrite filterBoolean_OneNode.
Qed.

End RootTypes.

(** ** The entry points *)

Section EntryPoints.
Context `{Collaborators}.

Lemma validateSchema_first (sch : GraphQLSchema) :
  __validationErrors sch = None →
  validateSchema (IsSchema sch)
  = (Normal (schemaErrors sch),
     IsSchema (set__validationErrors sch (schemaErrors sch))).
Proof.
  intros Hc. unfold validateSchema. rewrite Hc.
  assert (E : emits (validateRootTypes;; validateDirectives;; validateTypes)
                sch tt (schemaErrors sch)).
  { unfold schemaErrors.
    eapply emits_bind; [apply appends_emits; solve_appends|].
    destruct (value validateRootTypes sch).
    eapply emits_bind; [apply appends_emits; solve_appends|].
    destruct (value validateDirectives sch).
    pose proof (appends_emits validateTypes sch validateTypes_appends) as E.
    by destruct (value validateTypes sch). }
  unfold newContext. rewrite (E []). done.
Qed.

Lemma validateSchema_populated (sch : GraphQLSchema) cached :
  __validationErrors sch = Some cached →
  validateSchema (IsSchema sch) = (Normal cached, IsSchema sch).
Proof. intros Hc. unfold validateSchema. by rewrite Hc. Qed.

Lemma validateSchema_returns (sch : GraphQLSchema) :
  ∃ errors sch',
    validateSchema (IsSchema sch) = (Normal errors, IsSchema sch')
    ∧ __validationErrors sch' = Some errors.
Proof.
  destruct (__validationErrors sch) as [cached|] eqn:Hc.
  - exists cached, sch. by rewrite (validateSchema_populated _ cached).
  - eexists _, _. by rewrite validateSchema_first.
Qed.

End EntryPoints.

(** C2: a schema whose cache cell is populated, be it with the empty list,
    gets the content of the cell back and is left as it is, whatever the
    collaborators would answer: nothing is validated again.  The first call
    on a schema writes the diagnostics of the three passes into the cell,
    and a second call returns the result of the first. *)
Theorem validateSchema_computes_once :
  (∀ (C : Collaborators) sch cached,
     __validationErrors sch = Some cached →
     validateSchema (IsSchema sch) = (Normal cached, IsSchema sch))
  ∧ (∀ (C : Collaborators) sch,
       __validationErrors sch = None →
       validateSchema (IsSchema sch)
       = (Normal (schemaErrors sch),
          IsSchema (set__validationErrors sch (schemaErrors sch))))
  ∧ (∀ (C C' : Collaborators) sch,
       @validateSchema C' (@validateSchema C (IsSchema sch)).2
       = @validateSchema C (IsSchema sch)).
Proof.
  split; [intros C sch cached; apply validateSchema_populated|].
  split; [intros C sch; apply validateSchema_first|].
  intros C C' sch.
  destruct (@validateSchema_returns C sch) as (errors & sch' & E & Hc).
  rewrite E. simpl. by apply validateSchema_populated.
Qed.

(** C7: the strict entry point throws an error whose message is the
    messages of the diagnostics joined by a blank line, that is, by two
    newline characters, exactly when the diagnostic list of the schema is
    not empty; when it is empty the call returns normally.  Either way the
    schema is left as [validateSchema] leaves it.  With two diagnostics or
    more the message is the first message, two newlines, and the joined
    messages of the others. *)
Theorem assertValidSchema_throws_iff_errors `{Collaborators}
    (sch : GraphQLSchema) :
  ∃ errors sch',
    validateSchema (IsSchema sch) = (Normal errors, IsSchema sch')
    ∧ assertValidSchema (IsSchema sch)
      = (match errors with
         | [] => Normal tt
         | _ =>
             Throw (String.concat
                      (String "010"%char (String "010"%char EmptyString))
                      (message <$> errors))
         end, IsSchema sch')
    ∧ ((∃ msg, (assertValidSchema (IsSchema sch)).1 = Throw msg)
       ↔ errors ≠ [])
    ∧ (∀ e, errors = [e] →
         (assertValidSchema (IsSchema sch)).1 = Throw (message e))
    ∧ (∀ e1 e2 rest, errors = e1 :: e2 :: rest →
         (assertValidSchema (IsSchema sch)).1
         = Throw (message e1
                    +:+ String "010"%char (String "010"%char EmptyString)
                    +:+ String.concat
                          (String "010"%char (String "010"%char EmptyString))
                          (message <$> e2 :: rest))).
Proof.
  destruct (validateSchema_returns sch) as (errors & sch' & E & Hc).
  exists errors, sch'. split; [done|].
  assert (Ea : assertValidSchema (IsSchema sch)
               = (match errors with
                  | [] => Normal tt
                  | _ =>
                      Throw (String.concat
                               (String "010"%char
                                  (String "010"%char EmptyString))
                               (message <$> errors))
                  end, IsSchema sch')).
  { unfold assertValidSchema. rewrite E. by destruct errors. }
  split; [done|]. rewrite Ea. split; [|split].
  - destruct errors; simpl.
    + split; [intros [msg ?]; discriminate | done].
    + split; [done | intros _; by eexists].
  - intros e ->. reflexivity.
  - intros e1 e2 rest ->. reflexivity.
Qed.

(** ** Names *)

Section Names.
Context `{Collaborators}.

Lemma run_validateName sch n node :
  run (validateName n node) sch
  = if isAllowedLegacyName sch n then []
    else option_list (isValidNameError n node).
Proof.
  unfold validateName. run_binds.
  rewrite run_theSchema, value_theSchema. simpl.
  unfold isAllowedLegacyName.
  destruct (match __allowedLegacyNames sch with
            | Some allowed => bool_decide (n ∈ allowed)
            | None => false
            end); [done|].
  by destruct (isValidNameError n node).
Qed.

Lemma validateTypes_type_byKind typeName t :
  validateTypes_type (typeName, IsNamedType t)
  = (when (negb (isIntrospectionType t))
       (validateName (name t) (TypeDefinition <$> astNode t)) ;;
     validateTypes_byKind t).
Proof. reflexivity. Qed.

Lemma validateTypes_byKind_appends t : appends (validateTypes_byKind t).
Proof. unfold validateTypes_byKind. solve_appends. Qed.

End Names.

(** C8, as the specification states it, fails: the field of a type of the
    introspection set has its name checked. *)
Lemma introspection_type_field_name_is_checked :
  @isIntrospectionType sampleCollaborators introspectionNamedType = true
  ∧ @run unit
      (@validateTypes_type sampleCollaborators
         ("__Type", IsNamedType introspectionNamedType))
      emptySchema
    = [{| message := "Name __secret must not begin with __."; nodes := [] |}].
Proof. split; reflexivity. Qed.

(** C8 (amended): for a type of the introspection set the name check is not
    applied to the name of the type itself; the names of fields, of
    arguments and of enum values are checked whatever type they belong to.
    Wherever the name check is applied, it is bypassed exactly when the name
    is in the legacy allowlist of the schema. *)
Theorem name_check_exemptions `{Collaborators} (sch : GraphQLSchema) :
  (∀ typeName t,
     run (validateTypes_type (typeName, IsNamedType t)) sch
     = (if isIntrospectionType t then []
        else run (validateName (name t) (TypeDefinition <$> astNode t)) sch)
       ++ run (validateTypes_byKind t) sch)
  ∧ (∀ n node,
       run (validateName n node) sch
       = if isAllowedLegacyName sch n then []
         else option_list (isValidNameError n node))
  ∧ (∀ t fieldName f, ∃ rest,
       run (validateFields_field t (fieldName, f)) sch
       = run (validateName (field_name f)
                (FieldDefinition <$> field_astNode f)) sch ++ rest)
  ∧ (∀ t fieldName arg argNames, ∃ rest,
       run (validateFields_arg t fieldName arg argNames) sch
       = run (validateName (arg_name arg)
                (InputValueDefinition <$> arg_astNode arg)) sch ++ rest)
  ∧ (∀ t v, ∃ before after,
       run (validateEnumValues_enumValue t v) sch
       = before
         ++ run (validateName (ev_name v)
                   (EnumValueDefinition <$> ev_astNode v)) sch
         ++ after).
Proof.
  split; [|split; [|split; [|split]]].
  - intros typeName t. rewrite validateTypes_type_byKind.
    rewrite run_bind;
      [| solve_appends | intros ?; apply validateTypes_byKind_appends].
    rewrite run_when. by destruct (isIntrospectionType t).
  - intros n node. apply run_validateName.
  - intros t fieldName f. unfold validateFields_field.
    rewrite run_bind by appends_side. by eexists.
  - intros t fieldName arg argNames. unfold validateFields_arg.
    rewrite run_bind by appends_side. by eexists.
  - intros t v. unfold validateEnumValues_enumValue.
    rewrite run_bind by appends_side.
    rewrite (run_bind (validateName _ _)) by appends_side.
    by eexists _, _.
Qed.

(** ** Members of unions and of input unions *)

Section Members.
Context `{Collaborators}.

Lemma run_validateUnionMembers_memberType u m s sch :
  run (validateUnionMembers_memberType u m s) sch
  = if has s (name m) then [unionMemberDuplicateError u m]
    else if isObjectType m then [] else [unionMemberKindError u m].
Proof.
  unfold validateUnionMembers_memberType. destruct (has s (name m)).
  - rewrite run_bind by appends_side. by rewrite run_reportError.
  - rewrite run_bind by appends_side. rewrite run_when, run_ret, app_nil_r.
    by destruct (isObjectType m).
Qed.

Lemma value_validateUnionMembers_memberType u m s sch k :
  has (value (validateUnionMembers_memberType u m s) sch) k
  = bool_decide (k = name m) || has s k.
Proof.
  unfold validateUnionMembers_memberType.
  destruct (has s (name m)) eqn:Hs.
  - rewrite value_bind by appends_side. unfold value at 1. simpl.
    destruct (decide (k = name m)) as [->|Hne].
    + by rewrite Hs, bool_decide_eq_true_2.
    + by rewrite bool_decide_eq_false_2.
  - rewrite value_bind by appends_side. unfold value at 1. simpl.
    apply has_insert.
Qed.

Lemma run_validateInputUnionMembers_memberType u m s sch :
  run (validateInputUnionMembers_memberType u m s) sch
  = if has s (name m) then [inputUnionMemberDuplicateError u m]
    else if isInputObjectType m then [] else [inputUnionMemberKindError u m].
Proof.
  unfold validateInputUnionMembers_memberType. destruct (has s (name m)).
  - rewrite run_bind by appends_side. by rewrite run_reportError.
  - rewrite run_bind by appends_side. rewrite run_when, run_ret, app_nil_r.
    by destruct (isInputObjectType m).
Qed.

Lemma value_validateInputUnionMembers_memberType u m s sch k :
  has (value (validateInputUnionMembers_memberType u m s) sch) k
  = bool_decide (k = name m) || has s k.
Proof.
  unfold validateInputUnionMembers_memberType.
  destruct (has s (name m)) eqn:Hs.
  - rewrite value_bind by appends_side. unfold value at 1. simpl.
    destruct (decide (k = name m)) as [->|Hne].
    + by rewrite Hs, bool_decide_eq_true_2.
    + by rewrite bool_decide_eq_false_2.
  - rewrite value_bind by appends_side. unfold value at 1. simpl.
    apply has_insert.
Qed.

(** The members of a union, whatever their names: a member whose name was
    met earlier gets the duplicate diagnostic, any other member the kind
    check. *)
Lemma run_validateUnionMembers u sch :
  run (validateUnionMembers u) sch
  = (if bool_decide (length (getTypes u) = 0) then [unionEmptyError u] else [])
    ++ eachOnce name (λ m, [unionMemberDuplicateError u m])
         (λ m, if isObjectType m then [] else [unionMemberKindError u m])
         [] (getTypes u).
Proof.
  unfold validateUnionMembers. rewrite run_bind by appends_side.
  rewrite run_when, run_reportError. f_equal.
  apply run_forEachWith_names.
  - intros x s. solve_appends.
  - intros x s. apply run_validateUnionMembers_memberType.
  - intros x s k. apply value_validateUnionMembers_memberType.
  - intros k. rewrite has_empty. symmetry. apply bool_decide_eq_false_2.
    by intros ?%elem_of_nil.
Qed.

Lemma run_validateInputUnionMembers u sch :
  run (validateInputUnionMembers u) sch
  = (if bool_decide (length (getTypes u) = 0) then [inputUnionEmptyError u]
     else [])
    ++ eachOnce name (λ m, [inputUnionMemberDuplicateError u m])
         (λ m, if isInputObjectType m then []
               else [inputUnionMemberKindError u m])
         [] (getTypes u).
Proof.
  unfold validateInputUnionMembers. rewrite run_bind by appends_side.
  rewrite run_when, run_reportError. f_equal.
  apply run_forEachWith_names.
  - intros x s. solve_appends.
  - intros x s. apply run_validateInputUnionMembers_memberType.
  - intros x s k. apply value_validateInputUnionMembers_memberType.
  - intros k. rewrite has_empty. symmetry. apply bool_decide_eq_false_2.
    by intros ?%elem_of_nil.
Qed.

Lemma flat_map_kind_filter (k : TypeKind)
    (err : GraphQLNamedType → GraphQLError) (l : list GraphQLNamedType) :
  flat_map (λ m, if bool_decide (kind m = k) then [] else [err m]) l
  = err <$> filter (λ m, kind m ≠ k) l.
Proof.
  induction l as [|m l IH]; [done|]. simpl. rewrite IH.
  destruct (decide (kind m = k)) as [Hk|Hk].
  - rewrite bool_decide_eq_true_2 by done.
    by rewrite filter_cons_False by (by intros ?).
  - rewrite bool_decide_eq_false_2 by done.
    by rewrite filter_cons_True by done.
Qed.

(** C1: in a union whose members are distinct, each member that is not of
    Object kind gets exactly one diagnostic, the one of the kind rule, and
    the other members get none; likewise in an input union for the members
    that are not of InputObject kind.  So an InputObject member of a Union
    is reported, an Object member of an InputUnion is reported, and no
    type passes both kind rules.  (When a name occurs again, the later
    occurrence gets the duplicate diagnostic instead of the kind check.) *)
Theorem union_member_kind_rules (sch : GraphQLSchema) (u : GraphQLNamedType) :
  NoDup (name <$> getTypes u) →
  run (validateUnionMembers u) sch
  = (if bool_decide (length (getTypes u) = 0) then [unionEmptyError u] else [])
    ++ (unionMemberKindError u <$> filter (λ m, kind m ≠ Object) (getTypes u))
  ∧ run (validateInputUnionMembers u) sch
    = (if bool_decide (length (getTypes u) = 0) then [inputUnionEmptyError u]
       else [])
      ++ (inputUnionMemberKindError u
            <$> filter (λ m, kind m ≠ InputObject) (getTypes u))
  ∧ (∀ m, m ∈ getTypes u → isInputObjectType m = true →
          unionMemberKindError u m ∈ run (validateUnionMembers u) sch)
  ∧ (∀ m, m ∈ getTypes u → isObjectType m = true →
          inputUnionMemberKindError u m
            ∈ run (validateInputUnionMembers u) sch)
  ∧ (∀ m, ¬ (isObjectType m = true ∧ isInputObjectType m = true))
  ∧ (∀ u', run (validateUnionMembers u') sch
       = (if bool_decide (length (getTypes u') = 0) then [unionEmptyError u']
          else [])
         ++ eachOnce name (λ m, [unionMemberDuplicateError u' m])
              (λ m, if isObjectType m then [] else [unionMemberKindError u' m])
              [] (getTypes u'))
  ∧ (∀ u', run (validateInputUnionMembers u') sch
       = (if bool_decide (length (getTypes u') = 0)
          then [inputUnionEmptyError u'] else [])
         ++ eachOnce name (λ m, [inputUnionMemberDuplicateError u' m])
              (λ m, if isInputObjectType m then []
                    else [inputUnionMemberKindError u' m])
              [] (getTypes u')).
Proof.
  intros Hnd.
  assert (Eu : run (validateUnionMembers u) sch
    = (if bool_decide (length (getTypes u) = 0) then [unionEmptyError u]
       else [])
      ++ (unionMemberKindError u
            <$> filter (λ m, kind m ≠ Object) (getTypes u))).
  { rewrite run_validateUnionMembers. f_equal.
    rewrite eachOnce_fresh; [| done | by intros x _ ?%elem_of_nil].
    apply flat_map_kind_filter. }
  assert (Ei : run (validateInputUnionMembers u) sch
    = (if bool_decide (length (getTypes u) = 0) then [inputUnionEmptyError u]
       else [])
      ++ (inputUnionMemberKindError u
            <$> filter (λ m, kind m ≠ InputObject) (getTypes u))).
  { rewrite run_validateInputUnionMembers. f_equal.
    rewrite eachOnce_fresh; [| done | by intros x _ ?%elem_of_nil].
    apply flat_map_kind_filter. }
  split; [exact Eu|]. split; [exact Ei|].
  split; [|split; [|split; [|split]]].
  - intros m Hm Hk. rewrite Eu. apply elem_of_app. right.
    apply list_elem_of_fmap_2, list_elem_of_filter. split; [|done].
    apply bool_decide_eq_true in Hk. by rewrite Hk.
  - intros m Hm Hk. rewrite Ei. apply elem_of_app. right.
    apply list_elem_of_fmap_2, list_elem_of_filter. split; [|done].
    apply bool_decide_eq_true in Hk. by rewrite Hk.
  - intros m [Ho Hi]. apply bool_decide_eq_true in Ho, Hi. congruence.
  - intros u'. apply run_validateUnionMembers.
  - intros u'. apply run_validateInputUnionMembers.
Qed.

End Members.

(** ** Repeated elements *)

Section Repeated.
Context `{Collaborators}.

Lemma run_validateDirectives_arg d a s sch :
  run (validateDirectives_arg d a s) sch
  = if has s (arg_name a)
    then run (validateName (arg_name a)
                (InputValueDefinition <$> arg_astNode a)) sch
         ++ [directiveArgDuplicateError d a]
    else run (validateName (arg_name a)
                (InputValueDefinition <$> arg_astNode a)) sch
         ++ run (when (negb (isInputType (arg_type a))
                       && negb (refIsInputUnionType (arg_type a)))
                   (reportError
                      ("The type of @" +:+ d_name d +:+ "(" +:+ arg_name a
                         +:+ ":) must be Input Type but got: "
                         +:+ toString (arg_type a) +:+ ".")
                      (OneNode (Type_ <$> getDirectiveArgTypeNode d
                                            (arg_name a))))) sch.
Proof.
  unfold validateDirectives_arg. cbv zeta.
  rewrite run_bind by appends_side.
  destruct (has s (arg_name a)).
  - rewrite run_bind by appends_side. by rewrite run_reportError.
  - rewrite run_bind by appends_side. by rewrite run_ret, app_nil_r.
Qed.

Lemma value_validateDirectives_arg d a s sch k :
  has (value (validateDirectives_arg d a s) sch) k
  = bool_decide (k = arg_name a) || has s k.
Proof.
  unfold validateDirectives_arg. cbv zeta.
  rewrite value_bind by appends_side.
  destruct (has s (arg_name a)) eqn:Hs.
  - rewrite value_bind by appends_side. unfold value at 1. simpl.
    destruct (decide (k = arg_name a)) as [->|Hne].
    + by rewrite Hs, bool_decide_eq_true_2.
    + by rewrite bool_decide_eq_false_2.
  - rewrite value_bind by appends_side. unfold value at 1. simpl.
    apply has_insert.
Qed.

Lemma run_validateObjectInterfaces_iface o i s sch :
  run (validateObjectInterfaces_iface o i s) sch
  = if has s (name i) then [interfaceDuplicateError o i]
    else run (validateObjectImplementsInterface o i) sch.
Proof.
  unfold validateObjectInterfaces_iface. destruct (has s (name i)).
  - rewrite run_bind by appends_side. by rewrite run_reportError.
  - rewrite run_bind by appends_side. by rewrite run_ret, app_nil_r.
Qed.

Lemma value_validateObjectInterfaces_iface o i s sch k :
  has (value (validateObjectInterfaces_iface o i s) sch) k
  = bool_decide (k = name i) || has s k.
Proof.
  unfold validateObjectInterfaces_iface.
  destruct (has s (name i)) eqn:Hs.
  - rewrite value_bind by appends_side. unfold value at 1. simpl.
    destruct (decide (k = name i)) as [->|Hne].
    + by rewrite Hs, bool_decide_eq_true_2.
    + by rewrite bool_decide_eq_false_2.
  - rewrite value_bind by appends_side. unfold value at 1. simpl.
    apply has_insert.
Qed.

Lemma run_validateFields_field_redefined t fieldName f sch :
  1 < length (getAllFieldNodes t fieldName) →
  run (validateFields_field t (fieldName, f)) sch
  = run (validateName (field_name f)
           (FieldDefinition <$> field_astNode f)) sch
    ++ [fieldDuplicateError t fieldName].
Proof.
  intros Hn. unfold validateFields_field.
  rewrite run_bind by appends_side. cbv zeta.
  rewrite bool_decide_eq_true_2 by done. by rewrite run_reportError.
Qed.

Lemma filterBoolean_Some {A} (inj : A → ASTNode) (l : list A) :
  filterBoolean (NodeArray (Some ∘ inj <$> l)) = inj <$> l.
Proof.
  unfold filterBoolean. induction l as [|x l IH]; [done|].
  simpl. f_equal. exact IH.
Qed.

Lemma run_validateEnumValues_enumValue t v sch :
  run (validateEnumValues_enumValue t v) sch
  = (if isRedefinedEnumValue t v then [enumValueDuplicateError t v] else [])
    ++ run (validateName (ev_name v)
              (EnumValueDefinition <$> ev_astNode v)) sch
    ++ (if isReservedEnumValueName (ev_name v)
        then [enumReservedNameError t v] else []).
Proof.
  unfold validateEnumValues_enumValue. cbv zeta. run_binds.
  f_equal; [|f_equal].
  - unfold isRedefinedEnumValue, enumValueDuplicateError.
    destruct (getEnumValueNodes t (ev_name v)) as [allNodes|]; simpl.
    + rewrite run_when. case_bool_decide; [|done].
      by rewrite run_reportError, filterBoolean_Some.
    + done.
  - rewrite run_when, run_reportError. unfold isReservedEnumValueName.
    assert (E : String.eqb (ev_name v) "true" || String.eqb (ev_name v) "false"
                || String.eqb (ev_name v) "null"
                = bool_decide (ev_name v ∈ ["true"; "false"; "null"])).
    { apply eq_true_iff_eq.
      rewrite !orb_true_iff, !String.eqb_eq, bool_decide_eq_true.
      rewrite !elem_of_cons, elem_of_nil. tauto. }
    rewrite E. case_bool_decide; [|done].
    unfold enumReservedNameError. by rewrite filterBoolean_OneNode.
Qed.

(** C3 (amended): among directive arguments, union members, input-union
    members and claimed interfaces, the element whose name was met earlier
    in the collection contributes its duplicate diagnostic (after the
    diagnostic of its own name, for a directive argument) and no
    diagnostic of a kind or type check, and every other element is checked
    as in the collection without it; a field defined by more than one AST
    node contributes the diagnostic of its name and its duplicate
    diagnostic only, and the fields before and after it are checked.  An
    enum value has no kind or type check: its duplicate diagnostic is
    followed by the check of its name and by the reserved-name check. *)
Theorem repeated_element_checks_skipped (sch : GraphQLSchema) :
  (∀ d, skipsRepeated arg_name
          (λ l, forEachWith l (validateDirectives_arg d) ∅)
          (λ a, run (validateName (arg_name a)
                       (InputValueDefinition <$> arg_astNode a)) sch
                ++ [directiveArgDuplicateError d a]) sch)
  ∧ (∀ u, skipsRepeated name
            (λ l, forEachWith l (validateUnionMembers_memberType u) ∅)
            (λ m, [unionMemberDuplicateError u m]) sch)
  ∧ (∀ u, skipsRepeated name
            (λ l, forEachWith l (validateInputUnionMembers_memberType u) ∅)
            (λ m, [inputUnionMemberDuplicateError u m]) sch)
  ∧ (∀ o, skipsRepeated name
            (λ l, forEachWith l (validateObjectInterfaces_iface o) ∅)
            (λ i, [interfaceDuplicateError o i]) sch)
  ∧ (∀ t l1 fieldName f l2,
       1 < length (getAllFieldNodes t fieldName) →
       run (forEach (l1 ++ (fieldName, f) :: l2) (validateFields_field t)) sch
       = run (forEach l1 (validateFields_field t)) sch
         ++ (run (validateName (field_name f)
                    (FieldDefinition <$> field_astNode f)) sch
             ++ [fieldDuplicateError t fieldName])
         ++ run (forEach l2 (validateFields_field t)) sch)
  ∧ (∀ t v,
       run (validateEnumValues_enumValue t v) sch
       = (if isRedefinedEnumValue t v then [enumValueDuplicateError t v]
          else [])
         ++ run (validateName (ev_name v)
                   (EnumValueDefinition <$> ev_astNode v)) sch
         ++ (if isReservedEnumValueName (ev_name v)
             then [enumReservedNameError t v] else [])).
Proof.
  split; [|split; [|split; [|split; [|split]]]].
  - intros d. eapply skipsRepeated_names.
    + intros x s. solve_appends.
    + intros x s. apply run_validateDirectives_arg.
    + intros x s k. apply value_validateDirectives_arg.
  - intros u. eapply skipsRepeated_names.
    + intros x s. solve_appends.
    + intros x s. apply run_validateUnionMembers_memberType.
    + intros x s k. apply value_validateUnionMembers_memberType.
  - intros u. eapply skipsRepeated_names.
    + intros x s. solve_appends.
    + intros x s. apply run_validateInputUnionMembers_memberType.
    + intros x s k. apply value_validateInputUnionMembers_memberType.
  - intros o. eapply skipsRepeated_names.
    + intros x s. solve_appends.
    + intros x s. apply run_validateObjectInterfaces_iface.
    + intros x s k. apply value_validateObjectInterfaces_iface.
  - intros t l1 fieldName f l2 Hn.
    rewrite run_forEach_app by (intros ?; solve_appends).
    rewrite run_forEach_cons by (intros ?; solve_appends).
    by rewrite run_validateFields_field_redefined.
  - intros t v. apply run_validateEnumValues_enumValue.
Qed.

End Repeated.

(** ** Interface conformance *)

Section Conformance.
Context `{Collaborators}.

Lemma find_None_names (l : list GraphQLArgument) (n : string) :
  find l (λ arg, String.eqb (arg_name arg) n) = None
  ↔ n ∉ (arg_name <$> l).
Proof.
  unfold find. induction l as [|x l IH]; simpl.
  - split; [intros _ ?%elem_of_nil; done | done].
  - rewrite not_elem_of_cons.
    destruct (String.eqb (arg_name x) n) eqn:E.
    + apply String.eqb_eq in E. split; [done | intros [? _]; congruence].
    + apply String.eqb_neq in E. rewrite IH. split; [|tauto].
      intros ?. split; [congruence | done].
Qed.

Lemma run_ifaceArg_found o i fieldName objectField ifaceArg objectArg sch :
  find (field_args objectField)
    (λ arg, String.eqb (arg_name arg) (arg_name ifaceArg)) = Some objectArg →
  run (validateObjectImplementsInterface_ifaceArg o i fieldName objectField
         ifaceArg) sch
  = if isEqualType (arg_type ifaceArg) (arg_type objectArg) then []
    else [argTypeMismatchError o i fieldName ifaceArg objectArg].
Proof.
  intros Hf. unfold validateObjectImplementsInterface_ifaceArg. cbv zeta.
  rewrite Hf, run_when. by destruct (isEqualType _ _).
Qed.

Lemma run_objectArg o i fieldName ifaceField objectArg sch :
  run (validateObjectImplementsInterface_objectArg o i fieldName ifaceField
         objectArg) sch
  = if bool_decide ((arg_name objectArg ∉ arg_name <$> field_args ifaceField)
                    ∧ isNonNullType (arg_type objectArg))
    then [extraRequiredArgError o i fieldName objectArg] else [].
Proof.
  unfold validateObjectImplementsInterface_objectArg. cbv zeta.
  rewrite run_when.
  destruct (find (field_args ifaceField) _) as [ia|] eqn:Hf.
  - rewrite bool_decide_eq_true_2 by done. simpl.
    rewrite bool_decide_eq_false_2; [done|]. intros [Hn _].
    apply find_None_names in Hn. congruence.
  - rewrite bool_decide_eq_false_2 by (by intros [? ?]). simpl.
    apply find_None_names in Hf.
    destruct (isNonNullType (arg_type objectArg)).
    + by rewrite bool_decide_eq_true_2.
    + rewrite bool_decide_eq_false_2; [done|]. by intros [_ ?].
Qed.

Lemma run_implements_field o i fieldName ifaceField objectField sch :
  prop (getFields o) fieldName = Some objectField →
  run (validateObjectImplementsInterface_field o i (fieldName, ifaceField)) sch
  = (if isTypeSubTypeOf sch (field_type objectField) (field_type ifaceField)
     then []
     else [fieldTypeMismatchError o i fieldName ifaceField objectField])
    ++ run (forEach (field_args ifaceField)
              (validateObjectImplementsInterface_ifaceArg o i fieldName
                 objectField)) sch
    ++ run (forEach (field_args objectField)
              (validateObjectImplementsInterface_objectArg o i fieldName
                 ifaceField)) sch.
Proof.
  intros Hp. unfold validateObjectImplementsInterface_field.
  rewrite run_bind by appends_side.
  rewrite run_theSchema, value_theSchema, Hp. simpl.
  run_binds. rewrite run_when. f_equal.
  by destruct (isTypeSubTypeOf _ _ _).
Qed.

Lemma run_implements o i sch :
  isInterfaceType i = true →
  run (validateObjectImplementsInterface o i) sch
  = flat_map
      (λ entry, run (validateObjectImplementsInterface_field o i entry) sch)
      (getFields i).
Proof.
  intros Hi. unfold validateObjectImplementsInterface. rewrite Hi. simpl.
  apply run_forEach. intros ?. solve_appends.
Qed.

(** C4: for an object claiming an interface and a field both declare, the
    return type of the object's field is accepted when the subtype
    comparator accepts it against the interface's, and otherwise gets one
    diagnostic that cites both declared types; an argument of the
    interface's field that the object's field also declares gets a
    diagnostic if and only if the equality comparator refuses the two
    argument types. *)
Theorem interface_field_variance (sch : GraphQLSchema)
    (o i : GraphQLNamedType) (fieldName : string)
    (ifaceField objectField : GraphQLField) :
  isInterfaceType i = true →
  prop (getFields o) fieldName = Some objectField →
  run (validateObjectImplementsInterface o i) sch
  = flat_map
      (λ entry, run (validateObjectImplementsInterface_field o i entry) sch)
      (getFields i)
  ∧ run (validateObjectImplementsInterface_field o i (fieldName, ifaceField))
      sch
    = (if isTypeSubTypeOf sch (field_type objectField) (field_type ifaceField)
       then []
       else [fieldTypeMismatchError o i fieldName ifaceField objectField])
      ++ run (forEach (field_args ifaceField)
                (validateObjectImplementsInterface_ifaceArg o i fieldName
                   objectField)) sch
      ++ run (forEach (field_args objectField)
                (validateObjectImplementsInterface_objectArg o i fieldName
                   ifaceField)) sch
  ∧ (∀ ifaceArg objectArg,
       find (field_args objectField)
         (λ arg, String.eqb (arg_name arg) (arg_name ifaceArg))
         = Some objectArg →
       run (validateObjectImplementsInterface_ifaceArg o i fieldName
              objectField ifaceArg) sch
       = (if isEqualType (arg_type ifaceArg) (arg_type objectArg) then []
          else [argTypeMismatchError o i fieldName ifaceArg objectArg])
       ∧ (run (validateObjectImplementsInterface_ifaceArg o i fieldName
                 objectField ifaceArg) sch ≠ []
          ↔ isEqualType (arg_type ifaceArg) (arg_type objectArg) = false)).
Proof.
  intros Hi Hp. split; [by apply run_implements|].
  split; [by apply run_implements_field|].
  intros ifaceArg objectArg Hf.
  rewrite (run_ifaceArg_found _ _ _ _ _ objectArg) by done.
  split; [done|]. by destruct (isEqualType _ _).
Qed.

(** C5: an argument the object's field declares and the interface's field
    does not gets exactly one diagnostic when its type is a non-null
    wrapper and none otherwise; an argument the interface's field declares
    too gets none from this check. *)
Theorem extra_arguments_must_be_optional (sch : GraphQLSchema)
    (o i : GraphQLNamedType) (fieldName : string)
    (ifaceField objectField : GraphQLField) :
  run (forEach (field_args objectField)
         (validateObjectImplementsInterface_objectArg o i fieldName
            ifaceField)) sch
  = extraRequiredArgError o i fieldName
      <$> filter (λ a, (arg_name a ∉ arg_name <$> field_args ifaceField)
                       ∧ isNonNullType (arg_type a))
            (field_args objectField)
  ∧ (∀ a, arg_name a ∉ (arg_name <$> field_args ifaceField) →
       run (validateObjectImplementsInterface_objectArg o i fieldName
              ifaceField a) sch
       = if isNonNullType (arg_type a)
         then [extraRequiredArgError o i fieldName a] else [])
  ∧ (∀ a, arg_name a ∈ (arg_name <$> field_args ifaceField) →
       run (validateObjectImplementsInterface_objectArg o i fieldName
              ifaceField a) sch = []).
Proof.
  split; [|split].
  - rewrite run_forEach by (intros ?; solve_appends).
    induction (field_args objectField) as [|a l IH]; [done|].
    simpl. rewrite IH, run_objectArg. case_bool_decide.
    + by rewrite filter_cons_True by done.
    + by rewrite filter_cons_False by done.
  - intros a Ha. rewrite run_objectArg.
    destruct (isNonNullType (arg_type a)).
    + by rewrite bool_decide_eq_true_2.
    + rewrite bool_decide_eq_false_2; [done|]. by intros [_ ?].
  - intros a Ha. rewrite run_objectArg.
    rewrite bool_decide_eq_false_2; [done|]. by intros [? _].
Qed.

End Conformance.

(** * Further properties of the validator *)

(** ** The context and the entry points *)

Section ContextFacts.
Context `{Collaborators}.

Lemma appends_from {A} (m : V A) (context : SchemaValidationContext) :
  appends m →
  m context
  = (value m (schema context),
     {| _errors := _errors context ++ run m (schema context);
        schema := schema context |}).
Proof.
  intros Hm. destruct context as [errs sch]. simpl.
  apply (appends_emits m sch Hm).
Qed.

(** X1: the three passes only append to the error list of the context they are
    handed: the errors already there stay in front, what is appended does
    not depend on them, and the schema of the context is left alone. *)
Theorem passes_only_append (context : SchemaValidationContext) :
  (validateRootTypes context).2
  = {| _errors := _errors context ++ run validateRootTypes (schema context);
       schema := schema context |}
  ∧ (validateDirectives context).2
    = {| _errors := _errors context ++ run validateDirectives (schema context);
         schema := schema context |}
  ∧ (validateTypes context).2
    = {| _errors := _errors context ++ run validateTypes (schema context);
         schema := schema context |}
  ∧ ((validateRootTypes ;; validateDirectives ;; validateTypes) context).2
    = {| _errors := _errors context ++ schemaErrors (schema context);
         schema := schema context |}.
Proof.
  split; [by rewrite appends_from by solve_appends|].
  split; [by rewrite appends_from by solve_appends|].
  split; [by rewrite appends_from by solve_appends|].
  rewrite appends_from by solve_appends. simpl. f_equal. f_equal.
  unfold schemaErrors. run_binds. done.
Qed.

Lemma validateSchema_again (arg : SchemaArg) :
  validateSchema (validateSchema arg).2 = validateSchema arg.
Proof.
  destruct arg as [r|sch]; [done|].
  destruct (validateSchema_returns sch) as (errors & sch' & E & Hc).
  rewrite E. simpl. by apply validateSchema_populated.
Qed.

Lemma assertValidSchema_state (arg : SchemaArg) :
  (assertValidSchema arg).2 = (validateSchema arg).2.
Proof.
  unfold assertValidSchema.
  destruct (validateSchema arg) as [[errors|msg] arg']; [|done].
  by destruct (negb _).
Qed.

(** X3: the two entry points share the cache: after the strict entry point has
    run, be it with an exception, [validateSchema] returns what it would
    have returned before, and a second strict call ends as the first. *)
Theorem entry_points_compose (arg : SchemaArg) :
  (assertValidSchema arg).2 = (validateSchema arg).2
  ∧ validateSchema (assertValidSchema arg).2 = validateSchema arg
  ∧ assertValidSchema (assertValidSchema arg).2 = assertValidSchema arg
  ∧ assertValidSchema (validateSchema arg).2 = assertValidSchema arg.
Proof.
  assert (Ha : assertValidSchema (validateSchema arg).2
               = assertValidSchema arg).
  { unfold assertValidSchema. by rewrite validateSchema_again. }
  split; [apply assertValidSchema_state|].
  rewrite assertValidSchema_state.
  split; [apply validateSchema_again|]. done.
Qed.

End ContextFacts.

(** ** Lists of diagnostics that are empty *)

Lemma flat_map_nil_iff {A B} (f : A → list B) (l : list A) :
  flat_map f l = [] ↔ Forall (λ x, f x = []) l.
Proof.
  induction l as [|x l IH]; simpl.
  - split; [constructor | done].
  - rewrite Forall_cons, <- IH. apply app_nil.
Qed.

Lemma eachOnce_nil_iff {A} (key : A → string) dup fresh seen (l : list A) :
  (∀ x, dup x ≠ []) →
  eachOnce key dup fresh seen l = []
  ↔ (∀ x, x ∈ l → key x ∉ seen) ∧ NoDup (key <$> l)
    ∧ (∀ x, x ∈ l → fresh x = []).
Proof.
  intros Hdup. revert seen. induction l as [|x l IH]; intros seen; simpl.
  - split; [|done]. intros _. split; [|split].
    + by intros x ?%elem_of_nil.
    + constructor.
    + by intros x ?%elem_of_nil.
  - rewrite app_nil, IH, NoDup_cons. split.
    + intros (Hx & Hs & Hnd & Hf).
      assert (Hnx : key x ∉ seen).
      { intros Hin. rewrite bool_decide_eq_true_2 in Hx by done.
        by apply (Hdup x). }
      rewrite bool_decide_eq_false_2 in Hx by done.
      split; [|split; [split|]].
      * intros y [->|Hy]%elem_of_cons; [done|].
        intros Hin. apply (Hs y Hy). by right.
      * intros (y & Heq & Hy)%list_elem_of_fmap.
        apply (Hs y Hy). rewrite <- Heq. by left.
      * done.
      * intros y [->|Hy]%elem_of_cons; [done | by apply Hf].
    + intros (Hs & (Hx & Hnd) & Hf).
      rewrite bool_decide_eq_false_2 by (apply Hs; by left).
      split; [apply Hf; by left|]. split; [|split; [done|]].
      * intros y Hy [Heq|Hin]%elem_of_cons.
        -- apply Hx. rewrite <- Heq. by apply list_elem_of_fmap_2.
        -- apply (Hs y); [by right | done].
      * intros y Hy. apply Hf. by right.
Qed.

Section Validity.
Context `{Collaborators}.

Lemma run_validateName_nil sch n node :
  run (validateName n node) sch = [] ↔ nameAccepted sch n node.
Proof.
  rewrite run_validateName. unfold nameAccepted.
  destruct (isAllowedLegacyName sch n); [split; [by left | done]|].
  destruct (isValidNameError n node); simpl.
  - split; [done | by intros [?|?]].
  - split; [by right | done].
Qed.

(** ** The order of the diagnostics and the validity of a schema *)

Lemma run_validateDirectives sch :
  run validateDirectives sch
  = flat_map (λ d, run (validateDirectives_directive d) sch) (getDirectives sch).
Proof.
  unfold validateDirectives. rewrite run_bind by appends_side.
  rewrite run_theSchema, value_theSchema. simpl.
  apply run_forEach. intros ?. solve_appends.
Qed.

Lemma run_validateTypes sch :
  run validateTypes sch
  = flat_map (λ entry, run (validateTypes_type entry) sch) (getTypeMap sch).
Proof.
  unfold validateTypes. rewrite run_bind by appends_side.
  rewrite run_theSchema, value_theSchema. simpl.
  apply run_forEach. intros ?. solve_appends.
Qed.

(** X4: the diagnostics of a schema are those of the roots, then those of
    each directive in the order of the directive list, then those of each
    entry of the type map in the order of its keys; so a schema is found
    valid exactly when the roots, every directive and every entry of the
    type map give no diagnostic. *)
Theorem schema_diagnostics_in_order (sch : GraphQLSchema) :
  schemaErrors sch
  = run validateRootTypes sch
    ++ flat_map (λ d, run (validateDirectives_directive d) sch)
         (getDirectives sch)
    ++ flat_map (λ entry, run (validateTypes_type entry) sch) (getTypeMap sch)
  ∧ (schemaErrors sch = []
     ↔ run validateRootTypes sch = []
       ∧ Forall (λ d, run (validateDirectives_directive d) sch = [])
           (getDirectives sch)
       ∧ Forall (λ entry, run (validateTypes_type entry) sch = [])
           (getTypeMap sch)).
Proof.
  assert (E : schemaErrors sch
    = run validateRootTypes sch
      ++ flat_map (λ d, run (validateDirectives_directive d) sch)
           (getDirectives sch)
      ++ flat_map (λ entry, run (validateTypes_type entry) sch)
           (getTypeMap sch)).
  { unfold schemaErrors. by rewrite run_validateDirectives, run_validateTypes. }
  split; [exact E|]. rewrite E, !app_nil, !flat_map_nil_iff. done.
Qed.

End Validity.

Section KindRules.
Context `{Collaborators}.

(** ** Root types *)

(** X5: the roots give no diagnostic exactly when there is a query root of
    Object kind and the mutation and subscription roots, where present, are
    of Object kind. *)
Theorem roots_valid_iff (sch : GraphQLSchema) :
  run validateRootTypes sch = []
  ↔ (∃ queryType, getQueryType sch = Some queryType ∧ kind queryType = Object)
    ∧ (∀ t, getMutationType sch = Some t → kind t = Object)
    ∧ (∀ t, getSubscriptionType sch = Some t → kind t = Object).
Proof.
  unfold validateRootTypes. run_binds.
  rewrite run_theSchema, value_theSchema. simpl. rewrite !app_nil.
  assert (Hk : ∀ t msg ns,
    run (when (negb (isObjectType t)) (reportError msg ns)) sch = []
    ↔ kind t = Object).
  { intros t msg ns. rewrite run_when. unfold isObjectType.
    case_bool_decide; simpl; [done|]. by rewrite run_reportError. }
  destruct (getQueryType sch) as [q|];
    destruct (getMutationType sch) as [m|];
    destruct (getSubscriptionType sch) as [s|];
    rewrite ?Hk, ?run_ret, ?run_reportError;
    (split;
     [ intros (Hq & Hm & Hs);
       first [ discriminate
             | split; [by eexists|]; split; intros t Ht; by simplify_eq ]
     | intros ((t & Ht & Hq) & Hm & Hs);
       first [ discriminate | simplify_eq; repeat split; auto ] ]).
Qed.

(** ** The dispatch by kind *)

(** X6: a type of the type map has its own name checked unless it is of the
    introspection set, and then exactly the checks of its kind, in the
    order of the source: fields then interfaces for an Object, fields for
    an Interface, members for a Union and for an InputUnion, values for an
    Enum, input fields for an InputObject, nothing more for a Scalar.  A
    value of the type map that is not a named type gets one diagnostic. *)
Theorem types_checked_by_kind (sch : GraphQLSchema) (typeName : string) :
  (∀ t,
     run (validateTypes_type (typeName, IsNamedType t)) sch
     = (if isIntrospectionType t then []
        else run (validateName (name t) (TypeDefinition <$> astNode t)) sch)
       ++ match kind t with
          | Scalar => []
          | Object =>
              run (validateFields t) sch ++ run (validateObjectInterfaces t) sch
          | Interface => run (validateFields t) sch
          | Union => run (validateUnionMembers t) sch
          | InputUnion => run (validateInputUnionMembers t) sch
          | Enum => run (validateEnumValues t) sch
          | InputObject => run (validateInputFields t) sch
          end)
  ∧ (∀ rendering node,
       run (validateTypes_type (typeName, NotNamedType rendering node)) sch
       = [{| message := "Expected GraphQL named type but got: "
                          +:+ rendering +:+ ".";
             nodes := option_list node |}]).
Proof.
  split.
  - intros t. rewrite validateTypes_type_byKind.
    rewrite run_bind;
      [| solve_appends | intros ?; apply validateTypes_byKind_appends].
    rewrite run_when. f_equal; [by destruct (isIntrospectionType t)|].
    unfold validateTypes_byKind, isObjectType, isInterfaceType, isUnionType,
      isInputUnionType, isEnumType, isInputObjectType.
    destruct (kind t); simpl; try done.
    by rewrite run_bind by appends_side.
  - intros rendering node. simpl. rewrite run_reportError.
    by rewrite filterBoolean_OneNode.
Qed.

(** ** Unions, input unions and claimed interfaces *)

(** X7: a union gets no diagnostic exactly when it has at least one member,
    the names of its members are pairwise distinct and every member is of
    Object kind; an input union likewise with InputObject kind. *)
Theorem members_valid_iff (sch : GraphQLSchema) (u : GraphQLNamedType) :
  (run (validateUnionMembers u) sch = []
   ↔ getTypes u ≠ [] ∧ NoDup (name <$> getTypes u)
     ∧ ∀ m, m ∈ getTypes u → kind m = Object)
  ∧ (run (validateInputUnionMembers u) sch = []
     ↔ getTypes u ≠ [] ∧ NoDup (name <$> getTypes u)
       ∧ ∀ m, m ∈ getTypes u → kind m = InputObject).
Proof.
  assert (Hlen : ∀ (e : GraphQLError),
    (if bool_decide (length (getTypes u) = 0) then [e] else []) = []
    ↔ getTypes u ≠ []).
  { intros e. destruct (getTypes u); simpl; [|done].
    split; [done | by intros ?]. }
  split.
  - rewrite run_validateUnionMembers, app_nil, Hlen.
    rewrite eachOnce_nil_iff by done.
    split.
    + intros (Hne & _ & Hnd & Hk). split; [done|]. split; [done|].
      intros m Hm. specialize (Hk m Hm). unfold isObjectType in Hk.
      by case_bool_decide.
    + intros (Hne & Hnd & Hk). split; [done|].
      split; [by intros x _ ?%elem_of_nil|]. split; [done|].
      intros m Hm. unfold isObjectType.
      by rewrite bool_decide_eq_true_2 by auto.
  - rewrite run_validateInputUnionMembers, app_nil, Hlen.
    rewrite eachOnce_nil_iff by done.
    split.
    + intros (Hne & _ & Hnd & Hk). split; [done|]. split; [done|].
      intros m Hm. specialize (Hk m Hm). unfold isInputObjectType in Hk.
      by case_bool_decide.
    + intros (Hne & Hnd & Hk). split; [done|].
      split; [by intros x _ ?%elem_of_nil|]. split; [done|].
      intros m Hm. unfold isInputObjectType.
      by rewrite bool_decide_eq_true_2 by auto.
Qed.

Lemma run_validateObjectInterfaces o sch :
  run (validateObjectInterfaces o) sch
  = eachOnce name (λ i, [interfaceDuplicateError o i])
      (λ i, run (validateObjectImplementsInterface o i) sch)
      [] (getInterfaces o).
Proof.
  unfold validateObjectInterfaces. apply run_forEachWith_names.
  - intros x s. solve_appends.
  - intros x s. apply run_validateObjectInterfaces_iface.
  - intros x s k. apply value_validateObjectInterfaces_iface.
  - intros k. rewrite has_empty. symmetry. apply bool_decide_eq_false_2.
    by intros ?%elem_of_nil.
Qed.

(** X8: the interfaces an object claims give no diagnostic exactly when their
    names are pairwise distinct and the object conforms to each of them;
    an object that claims no interface gives none. *)
Theorem interfaces_valid_iff (sch : GraphQLSchema) (o : GraphQLNamedType) :
  run (validateObjectInterfaces o) sch = []
  ↔ NoDup (name <$> getInterfaces o)
    ∧ ∀ i, i ∈ getInterfaces o →
           run (validateObjectImplementsInterface o i) sch = [].
Proof.
  rewrite run_validateObjectInterfaces, eachOnce_nil_iff by done.
  split; [by intros (_ & ? & ?) | intros [? ?]].
  split; [by intros x _ ?%elem_of_nil | done].
Qed.

End KindRules.

(** ** Directives, fields and arguments *)

Section Arguments.
Context `{Collaborators}.

Lemma names_empty (k : string) : has ∅ k = bool_decide (k ∈ @nil string).
Proof.
  rewrite has_empty. symmetry. apply bool_decide_eq_false_2.
  by intros ?%elem_of_nil.
Qed.

Lemma run_type_check_nil (ty : GraphQLType) msg ns sch :
  run (when (negb (isInputType ty) && negb (refIsInputUnionType ty))
         (reportError msg ns)) sch = []
  ↔ acceptedAsInput ty = true.
Proof.
  rewrite run_when, run_reportError. unfold acceptedAsInput.
  by destruct (isInputType ty), (refIsInputUnionType ty).
Qed.

Lemma run_directive_args d l sch :
  run (forEachWith l (validateDirectives_arg d) ∅) sch
  = eachOnce arg_name
      (λ a, run (validateName (arg_name a)
                   (InputValueDefinition <$> arg_astNode a)) sch
            ++ [directiveArgDuplicateError d a])
      (λ a, run (validateName (arg_name a)
                   (InputValueDefinition <$> arg_astNode a)) sch
            ++ run (when (negb (isInputType (arg_type a))
                          && negb (refIsInputUnionType (arg_type a)))
                      (reportError
                         ("The type of @" +:+ d_name d +:+ "(" +:+ arg_name a
                            +:+ ":) must be Input Type but got: "
                            +:+ toString (arg_type a) +:+ ".")
                         (OneNode (Type_ <$> getDirectiveArgTypeNode d
                                               (arg_name a))))) sch)
      [] l.
Proof.
  apply run_forEachWith_names.
  - intros x s. solve_appends.
  - intros x s. apply run_validateDirectives_arg.
  - intros x s k. apply value_validateDirectives_arg.
  - apply names_empty.
Qed.

(** X9: a directive gives no diagnostic exactly when its name is accepted, the
    names of its arguments are pairwise distinct and every argument has an
    accepted name and a type accepted in input position; a value of the
    directive list that is not a directive always gives one. *)
Theorem directive_valid_iff (sch : GraphQLSchema) :
  (∀ d, run (validateDirectives_directive (IsDirective d)) sch = []
        ↔ nameAccepted sch (d_name d) (DirectiveDefinition <$> d_astNode d)
          ∧ NoDup (arg_name <$> d_args d)
          ∧ ∀ a, a ∈ d_args d → argumentAccepted sch a)
  ∧ (∀ rendering node,
       run (validateDirectives_directive (NotDirective rendering node)) sch
       = [{| message := "Expected directive but got: " +:+ rendering +:+ ".";
             nodes := option_list node |}]).
Proof.
  split.
  - intros d. unfold validateDirectives_directive.
    rewrite run_bind by appends_side.
    rewrite app_nil, run_validateName_nil, run_directive_args.
    rewrite eachOnce_nil_iff by (by intros a ?%app_nil%proj2).
    apply and_iff_compat_l. split.
    + intros (_ & Hnd & Ha). split; [done|]. intros a Hin.
      specialize (Ha a Hin). apply app_nil in Ha as [Hn Ht].
      split; [by apply run_validateName_nil | by eapply run_type_check_nil].
    + intros (Hnd & Ha). split; [by intros x _ ?%elem_of_nil|].
      split; [done|]. intros a Hin. destruct (Ha a Hin) as [Hn Ht].
      apply app_nil. split; [by apply run_validateName_nil|].
      by apply run_type_check_nil.
  - intros rendering node. simpl.
    by rewrite run_reportError, filterBoolean_OneNode.
Qed.

Lemma run_validateFields_arg t f a s sch :
  run (validateFields_arg t f a s) sch
  = if has s (arg_name a)
    then run (validateName (arg_name a)
                (InputValueDefinition <$> arg_astNode a)) sch
         ++ [fieldArgDuplicateError t f a]
         ++ (if acceptedAsInput (arg_type a) then []
             else [fieldArgTypeError t f a])
    else run (validateName (arg_name a)
                (InputValueDefinition <$> arg_astNode a)) sch
         ++ (if acceptedAsInput (arg_type a) then []
             else [fieldArgTypeError t f a]).
Proof.
  unfold validateFields_arg. cbv zeta. run_binds.
  rewrite !run_when, !run_reportError, run_ret, app_nil_r.
  assert (E : (if negb (isInputType (arg_type a))
                  && negb (refIsInputUnionType (arg_type a))
               then [{| message :=
                          "The type of " +:+ name t +:+ "." +:+ f +:+ "("
                            +:+ arg_name a
                            +:+ ":) must be Input Type but got: "
                            +:+ toString (arg_type a) +:+ ".";
                        nodes := filterBoolean
                                   (OneNode (Type_ <$> getFieldArgTypeNode t f
                                                         (arg_name a))) |}]
               else [])
              = if acceptedAsInput (arg_type a) then []
                else [fieldArgTypeError t f a]).
  { unfold acceptedAsInput, fieldArgTypeError.
    rewrite filterBoolean_OneNode.
    by destruct (isInputType _), (refIsInputUnionType _). }
  rewrite E. by destruct (has s (arg_name a)).
Qed.

Lemma value_validateFields_arg t f a s sch k :
  has (value (validateFields_arg t f a s) sch) k
  = bool_decide (k = arg_name a) || has s k.
Proof.
  unfold validateFields_arg. cbv zeta.
  repeat rewrite value_bind by appends_side.
  unfold value at 1. simpl. apply has_insert.
Qed.


Lemma run_field_args t fieldName l sch :
  run (forEachWith l (validateFields_arg t fieldName) ∅) sch
  = eachOnce arg_name
      (λ a, run (validateName (arg_name a)
                   (InputValueDefinition <$> arg_astNode a)) sch
            ++ [fieldArgDuplicateError t fieldName a]
            ++ (if acceptedAsInput (arg_type a) then []
                else [fieldArgTypeError t fieldName a]))
      (λ a, run (validateName (arg_name a)
                   (InputValueDefinition <$> arg_astNode a)) sch
            ++ (if acceptedAsInput (arg_type a) then []
                else [fieldArgTypeError t fieldName a]))
      [] l.
Proof.
  apply run_forEachWith_names.
  - intros x s. solve_appends.
  - intros x s. apply run_validateFields_arg.
  - intros x s k. apply value_validateFields_arg.
  - apply names_empty.
Qed.


End Arguments.

Section Collections.
Context `{Collaborators}.

Lemma when_empty_nil {A} (l : list A) sch msg ns :
  run (when (bool_decide (length l = 0)) (reportError msg ns)) sch = []
  ↔ l ≠ [].
Proof.
  rewrite run_when, run_reportError. destruct l; simpl; [|done].
  split; [done | by intros ?].
Qed.

Lemma run_validateFields_field_nil t fieldName f sch :
  run (validateFields_field t (fieldName, f)) sch = []
  ↔ nameAccepted sch (field_name f) (FieldDefinition <$> field_astNode f)
    ∧ (length (getAllFieldNodes t fieldName) ≤ 1)%nat
    ∧ isOutputType (field_type f) = true
    ∧ NoDup (arg_name <$> field_args f)
    ∧ ∀ a, a ∈ field_args f → argumentAccepted sch a.
Proof.
  unfold validateFields_field. rewrite run_bind by appends_side.
  rewrite app_nil, run_validateName_nil. apply and_iff_compat_l. cbv zeta.
  case_bool_decide as Hn.
  - rewrite run_reportError. split; [done | intros [? _]; lia].
  - rewrite run_bind by appends_side.
    rewrite app_nil, run_when, run_reportError.
    rewrite run_field_args, eachOnce_nil_iff
      by (intros a [_ [? _]%app_nil]%app_nil; done).
    split.
    + intros (Ho & _ & Hnd & Ha). split; [lia|].
      split; [by destruct (isOutputType _)|]. split; [done|].
      intros a Hin. specialize (Ha a Hin). apply app_nil in Ha as [Hna Hty].
      split; [by apply run_validateName_nil|].
      by destruct (acceptedAsInput _).
    + intros (_ & Ho & Hnd & Ha). rewrite Ho. split; [done|].
      split; [by intros x _ ?%elem_of_nil|]. split; [done|].
      intros a Hin. destruct (Ha a Hin) as [Hna Hty].
      apply app_nil. split; [by apply run_validateName_nil|].
      by rewrite Hty.
Qed.

(** X11: an Object or Interface type gets no diagnostic for its fields exactly
    when it has at least one field and every field has an accepted name, at
    most one defining AST node over the type's node and its extensions, an
    output type, arguments with pairwise distinct names, and every argument
    an accepted name and a type accepted in input position. *)
Theorem fields_valid_iff (sch : GraphQLSchema) (t : GraphQLNamedType) :
  run (validateFields t) sch = []
  ↔ getFields t ≠ []
    ∧ ∀ fieldName f, (fieldName, f) ∈ getFields t →
        nameAccepted sch (field_name f) (FieldDefinition <$> field_astNode f)
        ∧ (length (getAllFieldNodes t fieldName) ≤ 1)%nat
        ∧ isOutputType (field_type f) = true
        ∧ NoDup (arg_name <$> field_args f)
        ∧ ∀ a, a ∈ field_args f → argumentAccepted sch a.
Proof.
  unfold validateFields. cbv zeta. rewrite run_bind by appends_side.
  rewrite app_nil, when_empty_nil. apply and_iff_compat_l.
  rewrite run_forEach by (intros ?; solve_appends).
  rewrite flat_map_nil_iff, Forall_forall. split.
  - intros Hf fieldName f Hin.
    by apply run_validateFields_field_nil, (Hf (fieldName, f)).
  - intros Hf [fieldName f] Hin. by apply run_validateFields_field_nil, Hf.
Qed.

(** X12: an InputObject type gets no diagnostic exactly when it has at least
    one field and every field has an accepted name and a type accepted in
    input position; fields that share a name are not looked for. *)
Theorem input_fields_valid_iff (sch : GraphQLSchema) (t : GraphQLNamedType) :
  run (validateInputFields t) sch = []
  ↔ getInputFields t ≠ []
    ∧ ∀ fieldName f, (fieldName, f) ∈ getInputFields t →
        nameAccepted sch (ifield_name f)
          (InputValueDefinition <$> ifield_astNode f)
        ∧ acceptedAsInput (ifield_type f) = true.
Proof.
  unfold validateInputFields. cbv zeta. rewrite run_bind by appends_side.
  rewrite app_nil, when_empty_nil. apply and_iff_compat_l.
  rewrite run_forEach by (intros ?; solve_appends).
  rewrite flat_map_nil_iff, Forall_forall.
  assert (Hf : ∀ fieldName f,
    run (validateInputFields_field t (fieldName, f)) sch = []
    ↔ nameAccepted sch (ifield_name f)
        (InputValueDefinition <$> ifield_astNode f)
      ∧ acceptedAsInput (ifield_type f) = true).
  { intros fieldName f. unfold validateInputFields_field.
    rewrite run_bind by appends_side.
    by rewrite app_nil, run_validateName_nil, run_type_check_nil. }
  split.
  - intros Ha fieldName f Hin.
    by apply (proj1 (Hf fieldName f)), (Ha (fieldName, f)).
  - intros Ha [fieldName f] Hin.
    by apply (proj2 (Hf fieldName f)), (Ha fieldName f).
Qed.

(** X13: an Enum type gets no diagnostic exactly when it has at least one value
    and every value is defined by at most one value node of the enum's AST
    node, has an accepted name, and is not named [true], [false] or
    [null]. *)
Theorem enum_values_valid_iff (sch : GraphQLSchema) (t : GraphQLNamedType) :
  run (validateEnumValues t) sch = []
  ↔ getValues t ≠ []
    ∧ ∀ v, v ∈ getValues t →
        isRedefinedEnumValue t v = false
        ∧ nameAccepted sch (ev_name v) (EnumValueDefinition <$> ev_astNode v)
        ∧ ev_name v ∉ ["true"; "false"; "null"].
Proof.
  unfold validateEnumValues. cbv zeta. rewrite run_bind by appends_side.
  rewrite app_nil, when_empty_nil. apply and_iff_compat_l.
  rewrite run_forEach by (intros ?; solve_appends).
  rewrite flat_map_nil_iff, Forall_forall.
  apply forall_proper. intros v. apply forall_proper. intros Hin.
  rewrite run_validateEnumValues_enumValue, !app_nil, run_validateName_nil.
  unfold isReservedEnumValueName.
  destruct (isRedefinedEnumValue t v);
    [split; intros (? & _); discriminate|].
  case_bool_decide as Hr.
  - split; [intros (_ & _ & ?); discriminate | by intros (_ & _ & ?)].
  - split; by intros (_ & ? & _).
Qed.

End Collections.

(** ** The conformance of an object to an interface *)

Section ConformanceCriterion.
Context `{Collaborators}.

Lemma run_ifaceArg_nil o i fieldName objectField ifaceArg sch :
  run (validateObjectImplementsInterface_ifaceArg o i fieldName objectField
         ifaceArg) sch = []
  ↔ ∃ objectArg,
      find (field_args objectField)
        (λ arg, String.eqb (arg_name arg) (arg_name ifaceArg)) = Some objectArg
      ∧ isEqualType (arg_type ifaceArg) (arg_type objectArg) = true.
Proof.
  unfold validateObjectImplementsInterface_ifaceArg. cbv zeta.
  destruct (find (field_args objectField) _) as [objectArg|].
  - rewrite run_when, run_reportError. split.
    + intros Hr. exists objectArg. split; [done|].
      by destruct (isEqualType _ _).
    + intros (oa & [= <-] & ->). done.
  - rewrite run_reportError. split; [done | by intros (? & ? & _)].
Qed.

Lemma run_objectArg_nil o i fieldName ifaceField objectArg sch :
  run (validateObjectImplementsInterface_objectArg o i fieldName ifaceField
         objectArg) sch = []
  ↔ (isNonNullType (arg_type objectArg) = true →
     arg_name objectArg ∈ arg_name <$> field_args ifaceField).
Proof.
  rewrite run_objectArg. case_bool_decide as Hc.
  - destruct Hc as [Hn Ht]. split; [done|]. intros Hi.
    destruct Hn. apply Hi. by apply Is_true_true.
  - split; [|done]. intros _ Ht.
    destruct (decide (arg_name objectArg ∈ arg_name <$> field_args ifaceField))
      as [|Hn]; [done|].
    destruct Hc. split; [done | by apply Is_true_true].
Qed.

Lemma run_implements_field_nil o i fieldName ifaceField sch :
  run (validateObjectImplementsInterface_field o i (fieldName, ifaceField)) sch
  = []
  ↔ ∃ objectField,
      prop (getFields o) fieldName = Some objectField
      ∧ isTypeSubTypeOf sch (field_type objectField) (field_type ifaceField)
        = true
      ∧ (∀ ifaceArg, ifaceArg ∈ field_args ifaceField →
           ∃ objectArg,
             find (field_args objectField)
               (λ arg, String.eqb (arg_name arg) (arg_name ifaceArg))
             = Some objectArg
             ∧ isEqualType (arg_type ifaceArg) (arg_type objectArg) = true)
      ∧ (∀ objectArg, objectArg ∈ field_args objectField →
           isNonNullType (arg_type objectArg) = true →
           arg_name objectArg ∈ arg_name <$> field_args ifaceField).
Proof.
  destruct (prop (getFields o) fieldName) as [objectField|] eqn:Hp.
  - rewrite (run_implements_field _ _ _ _ objectField) by done.
    rewrite !app_nil, !run_forEach by (intros ?; solve_appends).
    rewrite !flat_map_nil_iff, !Forall_forall.
    split.
    + intros (Ht & Ha & Hx). exists objectField. split; [done|].
      split; [by destruct (isTypeSubTypeOf _ _ _)|]. split.
      * intros ia Hin.
        by apply (proj1 (run_ifaceArg_nil o i fieldName objectField ia sch)),
          Ha.
      * intros oa Hin.
        by apply (proj1 (run_objectArg_nil o i fieldName ifaceField oa sch)),
          Hx.
    + intros (objectField' & [= <-] & Ht & Ha & Hx). rewrite Ht.
      split; [done|]. split.
      * intros ia Hin.
        by apply (proj2 (run_ifaceArg_nil o i fieldName objectField ia sch)),
          Ha.
      * intros oa Hin.
        by apply (proj2 (run_objectArg_nil o i fieldName ifaceField oa sch)),
          Hx.
  - unfold validateObjectImplementsInterface_field.
    rewrite run_bind by appends_side.
    rewrite run_theSchema, value_theSchema, Hp. simpl.
    rewrite run_reportError. split; [done | by intros (? & ? & _)].
Qed.

(** X14: an object conforms to a type it claims to implement, that is, the claim
    gives no diagnostic, exactly when the type is of Interface kind and,
    for every field of the interface, the object has a field of that name
    whose type the subtype comparator accepts, whose arguments include,
    for each argument of the interface's field, an argument of that name
    (the first one) of a type the equality comparator accepts, and whose
    arguments of non-null type all carry the name of an argument of the
    interface's field. *)
Theorem conformance_criterion (sch : GraphQLSchema) (o i : GraphQLNamedType) :
  run (validateObjectImplementsInterface o i) sch = []
  ↔ kind i = Interface
    ∧ ∀ fieldName ifaceField, (fieldName, ifaceField) ∈ getFields i →
        ∃ objectField,
          prop (getFields o) fieldName = Some objectField
          ∧ isTypeSubTypeOf sch (field_type objectField)
              (field_type ifaceField) = true
          ∧ (∀ ifaceArg, ifaceArg ∈ field_args ifaceField →
               ∃ objectArg,
                 find (field_args objectField)
                   (λ arg, String.eqb (arg_name arg) (arg_name ifaceArg))
                 = Some objectArg
                 ∧ isEqualType (arg_type ifaceArg) (arg_type objectArg) = true)
          ∧ (∀ objectArg, objectArg ∈ field_args objectField →
               isNonNullType (arg_type objectArg) = true →
               arg_name objectArg ∈ arg_name <$> field_args ifaceField).
Proof.
  destruct (decide (kind i = Interface)) as [Hk|Hk].
  - rewrite run_implements by (by apply bool_decide_eq_true_2).
    rewrite flat_map_nil_iff, Forall_forall. split.
    + intros Hf. split; [done|]. intros fieldName ifaceField Hin.
      by apply (proj1 (run_implements_field_nil o i fieldName ifaceField sch)),
        (Hf (fieldName, ifaceField)).
    + intros [_ Hf] [fieldName ifaceField] Hin.
      by apply (proj2 (run_implements_field_nil o i fieldName ifaceField sch)),
        Hf.
  - unfold validateObjectImplementsInterface, isInterfaceType.
    rewrite bool_decide_eq_false_2 by done. simpl.
    rewrite run_reportError. split; [done | by intros [? _]].
Qed.

Lemma prop_NoDup {A} (m : list (string * A)) k v :
  NoDup (fst <$> m) → (k, v) ∈ m → prop m k = Some v.
Proof.
  induction m as [|[k' v'] m IH]; intros Hnd Hin.
  - by apply elem_of_nil in Hin.
  - simpl in *. apply NoDup_cons in Hnd as [Hk Hnd].
    apply elem_of_cons in Hin as [[= <- <-]|Hin].
    + by rewrite String.eqb_refl.
    + destruct (String.eqb k' k) eqn:E; [|by apply IH].
      apply String.eqb_eq in E as ->. destruct Hk.
      by apply (list_elem_of_fmap_2 fst _ (k, v)).
Qed.

Lemma find_NoDup (l : list GraphQLArgument) a :
  NoDup (arg_name <$> l) → a ∈ l →
  find l (λ arg, String.eqb (arg_name arg) (arg_name a)) = Some a.
Proof.
  unfold find. induction l as [|b l IH]; intros Hnd Hin.
  - by apply elem_of_nil in Hin.
  - simpl in *. apply NoDup_cons in Hnd as [Hb Hnd].
    apply elem_of_cons in Hin as [<-|Hin].
    + by rewrite String.eqb_refl.
    + destruct (String.eqb (arg_name b) (arg_name a)) eqn:E; [|by apply IH].
      apply String.eqb_eq in E. destruct Hb. rewrite E.
      by apply list_elem_of_fmap_2.
Qed.

(** X15: an object whose field map is the interface's own conforms to it,
    provided that the interface is of Interface kind, that the names of
    its fields and, within each field, of its arguments are pairwise
    distinct, and that the comparators accept each field type and each
    argument type against itself. *)
Theorem same_fields_conform (sch : GraphQLSchema) (o i : GraphQLNamedType) :
  kind i = Interface →
  getFields o = getFields i →
  NoDup (fst <$> getFields i) →
  Forall (λ entry,
      NoDup (arg_name <$> field_args entry.2)
      ∧ isTypeSubTypeOf sch (field_type entry.2) (field_type entry.2) = true
      ∧ Forall (λ a, isEqualType (arg_type a) (arg_type a) = true)
          (field_args entry.2))
    (getFields i) →
  run (validateObjectImplementsInterface o i) sch = [].
Proof.
  intros Hk Ho Hnd Hf.
  rewrite run_implements by (by apply bool_decide_eq_true_2).
  rewrite flat_map_nil_iff, Forall_forall. intros [fieldName f] Hin.
  rewrite Forall_forall in Hf. destruct (Hf _ Hin) as (Hna & Ht & Ha).
  simpl in *. rewrite Forall_forall in Ha.
  apply (proj2 (run_implements_field_nil o i fieldName f sch)). exists f.
  split; [rewrite Ho; by apply prop_NoDup|]. split; [done|]. split.
  - intros a Ha'. exists a. split; [by apply find_NoDup | by apply Ha].
  - intros a Ha' _. by apply list_elem_of_fmap_2.
Qed.

End ConformanceCriterion.

(** ** Locating AST nodes *)

Section Locators.
Context `{Collaborators}.

Lemma Forall_filter_name {A} (nameOf : A → string) (n : string) (l : list A) :
  Forall (λ node, nameOf node = n) (filter (λ node, nameOf node = n) l).
Proof.
  apply Forall_forall. intros x Hx. by apply list_elem_of_filter in Hx as [? _].
Qed.

Lemma Forall_flat_map {A B} (P : B → Prop) (f : A → list B) (l : list A) :
  (∀ x, Forall P (f x)) → Forall P (flat_map f l).
Proof.
  intros Hf. induction l as [|x l IH]; simpl; [constructor|].
  apply Forall_app. split; [apply Hf | exact IH].
Qed.

(** X16: the locators of a name return nodes that carry that name only: the
    field nodes of a field name, the argument nodes of an argument name
    (of a field, of a directive), the interface nodes of an interface, the
    member nodes of a union or input-union member, the value nodes of an
    enum value. *)
Theorem locators_return_named_nodes (t : GraphQLNamedType) :
  (∀ fieldName,
     Forall (λ node, fd_name node = fieldName) (getAllFieldNodes t fieldName)
     ∧ ∀ node, getFieldNode t fieldName = Some node → fd_name node = fieldName)
  ∧ (∀ fieldName argName,
       Forall (λ node, ivd_name node = argName)
         (getAllFieldArgNodes t fieldName argName))
  ∧ (∀ d argName,
       Forall (λ node, ivd_name node = argName)
         (getAllDirectiveArgNodes d argName))
  ∧ (∀ i, Forall (λ node, ntn_name node = name i)
            (getAllImplementsInterfaceNodes t i))
  ∧ (∀ typeName l,
       getUnionMemberTypeNodes t typeName = Some l
       ∨ getInputUnionMemberTypeNodes t typeName = Some l →
       Forall (λ node, ntn_name node = typeName) l)
  ∧ (∀ valueName l,
       getEnumValueNodes t valueName = Some l →
       Forall (λ node, evd_name node = valueName) l).
Proof.
  assert (Hf : ∀ fieldName,
    Forall (λ node, fd_name node = fieldName) (getAllFieldNodes t fieldName)).
  { intros fieldName. apply Forall_flat_map. intros node.
    destruct (td_fields node); [apply Forall_filter_name | constructor]. }
  split; [|split; [|split; [|split; [|split]]]].
  - intros fieldName. split; [apply Hf|]. intros node Hn.
    unfold getFieldNode in Hn. specialize (Hf fieldName).
    destruct (getAllFieldNodes t fieldName) as [|n l]; [done|].
    simpl in Hn. injection Hn as <-. by apply Forall_cons in Hf as [? _].
  - intros fieldName argName. unfold getAllFieldArgNodes.
    destruct (getFieldNode t fieldName ≫= fd_arguments);
      [apply Forall_filter_name | constructor].
  - intros d argName. unfold getAllDirectiveArgNodes.
    destruct (d_astNode d ≫= dd_arguments);
      [apply Forall_filter_name | constructor].
  - intros i. apply Forall_flat_map. intros node.
    destruct (td_interfaces node); [apply Forall_filter_name | constructor].
  - intros typeName l.
    unfold getUnionMemberTypeNodes, getInputUnionMemberTypeNodes.
    destruct (astNode t ≫= td_types) as [types|]; simpl; [|by intros [?|?]].
    intros [[= <-]|[= <-]]; apply Forall_filter_name.
  - intros valueName l. unfold getEnumValueNodes.
    destruct (astNode t ≫= td_values) as [values|]; simpl; [|done].
    intros [= <-]. apply Forall_filter_name.
Qed.

Lemma filter_name_nonempty {A} (nameOf : A → string) (n : string)
    (l : list A) x :
  x ∈ l → nameOf x = n →
  (0 < length (filter (λ node, nameOf node = n) l))%nat.
Proof.
  intros Hx Hn.
  assert (Hin : x ∈ filter (λ node, nameOf node = n) l)
    by (by apply list_elem_of_filter).
  destruct (filter _ l); [by apply elem_of_nil in Hin | simpl; lia].
Qed.

Lemma length_flat_map_elem {A B} (f : A → list B) (l : list A) x :
  x ∈ l → (length (f x) ≤ length (flat_map f l))%nat.
Proof.
  induction l as [|y l IH]; intros Hx; [by apply elem_of_nil in Hx|].
  simpl. rewrite length_app. apply elem_of_cons in Hx as [->|Hx]; [lia|].
  specialize (IH Hx). lia.
Qed.

(** X17: a field defined in the type's own AST node and again in one of its
    extension nodes is reported as defined more than once; the type and the
    arguments of such a field are not checked. *)
Theorem field_redefined_in_extension (sch : GraphQLSchema)
    (t : GraphQLNamedType) (fieldName : string) (f : GraphQLField)
    (node ext : TypeDefinitionNode) (exts : list TypeDefinitionNode)
    (fields fields' : list FieldDefinitionNode)
    (def def' : FieldDefinitionNode) :
  astNode t = Some node → extensionASTNodes t = Some exts → ext ∈ exts →
  td_fields node = Some fields → def ∈ fields → fd_name def = fieldName →
  td_fields ext = Some fields' → def' ∈ fields' → fd_name def' = fieldName →
  run (validateFields_field t (fieldName, f)) sch
  = run (validateName (field_name f)
           (FieldDefinition <$> field_astNode f)) sch
    ++ [fieldDuplicateError t fieldName].
Proof.
  intros Hn He Hext Hf Hd Hdn Hf' Hd' Hdn'.
  apply run_validateFields_field_redefined.
  unfold getAllFieldNodes, getAllObjectOrInterfaceNodes.
  rewrite Hn, He. simpl. rewrite Hf, length_app.
  pose proof (filter_name_nonempty fd_name fieldName fields def Hd Hdn).
  pose proof (filter_name_nonempty fd_name fieldName fields' def' Hd' Hdn').
  pose proof (length_flat_map_elem
    (λ astNode, match td_fields astNode with
                | Some fields => filter (λ node, fd_name node = fieldName) fields
                | None => []
                end) exts ext Hext) as Hl.
  simpl in Hl. rewrite Hf' in Hl. lia.
Qed.

(** X18: for a type built without AST nodes the locators find nothing, so none
    of its fields is ever reported as defined more than once and none of
    its enum values as included more than once. *)
Theorem no_ast_no_redefinition (sch : GraphQLSchema) (t : GraphQLNamedType) :
  astNode t = None → extensionASTNodes t = None →
  (∀ fieldName,
     getAllFieldNodes t fieldName = [] ∧ getFieldTypeNode t fieldName = None
     ∧ ∀ argName, getAllFieldArgNodes t fieldName argName = []
                  ∧ getFieldArgTypeNode t fieldName argName = None)
  ∧ (∀ i, getAllImplementsInterfaceNodes t i = [])
  ∧ (∀ n, getUnionMemberTypeNodes t n = None
          ∧ getInputUnionMemberTypeNodes t n = None
          ∧ getEnumValueNodes t n = None)
  ∧ (∀ fieldName f,
       run (validateFields_field t (fieldName, f)) sch
       = run (validateName (field_name f)
                (FieldDefinition <$> field_astNode f)) sch
         ++ (if isOutputType (field_type f) then []
             else [fieldOutputTypeError t fieldName f])
         ++ run (forEachWith (field_args f) (validateFields_arg t fieldName) ∅)
              sch)
  ∧ (∀ v, isRedefinedEnumValue t v = false).
Proof.
  intros Hn He.
  assert (Hf : ∀ fieldName, getAllFieldNodes t fieldName = []).
  { intros fieldName. unfold getAllFieldNodes, getAllObjectOrInterfaceNodes.
    by rewrite Hn, He. }
  split; [|split; [|split; [|split]]].
  - intros fieldName. split; [apply Hf|].
    unfold getFieldTypeNode, getFieldArgTypeNode, getFieldArgNode,
      getAllFieldArgNodes, getFieldNode. by rewrite Hf.
  - intros i. unfold getAllImplementsInterfaceNodes, getAllObjectNodes,
      getAllObjectOrInterfaceNodes. by rewrite Hn, He.
  - intros n. unfold getUnionMemberTypeNodes, getInputUnionMemberTypeNodes,
      getEnumValueNodes. by rewrite Hn.
  - intros fieldName f.
    unfold validateFields_field. rewrite run_bind by appends_side.
    cbv zeta. rewrite Hf. simpl.
    rewrite run_bind by appends_side. rewrite run_when, run_reportError.
    unfold fieldOutputTypeError. rewrite filterBoolean_OneNode.
    by destruct (isOutputType _).
  - intros v. unfold isRedefinedEnumValue, getEnumValueNodes.
    by rewrite Hn.
Qed.

End Locators.

(** ** The suggestion-list formatter, further *)

Module OrListMore.
Import OrList.

(** X19: items after the fifth have no part in the result. *)
Theorem orList_ignores_items_beyond_five (items rest : list string) :
  length items = 5 →
  orList (items ++ rest) = orList items
  ∧ orList (items ++ rest) = orList (take MAX_LENGTH (items ++ rest)).
Proof.
  intros Hl. unfold orList.
  rewrite take_idemp, (take_app_length' items rest) by done.
  by rewrite (take_ge items) by (unfold MAX_LENGTH; lia).
Qed.

Lemma markLast_snoc (init : list string) (last : string) :
  markLast (init ++ [last]) = init ++ ["or " +:+ last].
Proof.
  induction init as [|x init IH]; [done|].
  change ((x :: init) ++ [last]) with (x :: (init ++ [last])).
  destruct (init ++ [last]) as [|y l] eqn:E.
  { by destruct init. }
  change (markLast (x :: y :: l)) with (x :: markLast (y :: l)).
  by rewrite IH.
Qed.

Lemma concat_snoc (sep : string) (init : list string) (x : string) :
  init ≠ [] →
  String.concat sep (init ++ [x]) = String.concat sep init +:+ sep +:+ x.
Proof.
  induction init as [|y init IH]; intros Hne; [done|].
  destruct init as [|z init]; [done|].
  change (String.concat sep ((y :: z :: init) ++ [x]))
    with (y +:+ sep +:+ String.concat sep ((z :: init) ++ [x])).
  rewrite IH by done.
  change (String.concat sep (y :: z :: init))
    with (y +:+ sep +:+ String.concat sep (z :: init)).
  by rewrite !OrListFacts.append_assoc.
Qed.

(** X20: two items are joined by " or "; three to five items are joined by
    ", ", the last one behind ", or ". *)
Theorem orList_joins (init : list string) (last : string) :
  (2 ≤ length init ≤ 4)%nat →
  orList (init ++ [last])
  = Some (String.concat ", " init +:+ ", or " +:+ last)
  ∧ ∀ a b, orList [a; b] = Some (a +:+ " or " +:+ b).
Proof.
  intros Hl. split.
  - rewrite OrListFacts.orList_rendering by (by destruct init).
    unfold rendering, separator.
    rewrite take_ge by (rewrite length_app; unfold MAX_LENGTH; simpl; lia).
    rewrite !bool_decide_eq_true_2 by (rewrite length_app; simpl; lia).
    rewrite markLast_snoc, concat_snoc by (destruct init; [simpl in Hl; lia | done]).
    done.
  - intros a b. rewrite OrListFacts.orList_rendering by done.
    unfold rendering, separator. simpl. reflexivity.
Qed.

End OrListMore.

(** ** The properties on concrete schemas

    All of them with the sample collaborators. *)

#[local] Existing Instance sampleCollaborators.

Lemma union_member_kind_rules_witness :
  NoDup (name <$> getTypes mixedUnion)
  ∧ run (validateUnionMembers mixedUnion) emptySchema
    = [unionMemberKindError mixedUnion (bareType "B" InputObject)]
  ∧ run (validateInputUnionMembers mixedUnion) emptySchema
    = [inputUnionMemberKindError mixedUnion (bareType "A" Object)].
Proof.
  assert (Hnd : NoDup (name <$> getTypes mixedUnion)).
  { apply (bool_decide_unpack _). vm_compute. exact I. }
  split; [exact Hnd|].
  destruct (union_member_kind_rules emptySchema mixedUnion Hnd)
    as (Eu & Ei & _).
  rewrite Eu, Ei. split; reflexivity.
Defined.

(** A union that lists the same member twice: one duplicate diagnostic, and
    the kind of the repeated member is not checked again. *)
Example union_repeated_member :
  run (validateUnionMembers
         (unionType "U" Union
            [bareType "B" InputObject; bareType "B" InputObject]))
    emptySchema
  = [unionMemberKindError (unionType "U" Union []) (bareType "B" InputObject);
     unionMemberDuplicateError (unionType "U" Union [])
       (bareType "B" InputObject)].
Proof. reflexivity. Qed.

(** A union without members: the structural diagnostic alone. *)
Example union_without_members :
  run (validateUnionMembers (unionType "U" Union [])) emptySchema
  = [unionEmptyError (unionType "U" Union [])].
Proof. reflexivity. Qed.

(** C3, as the specification states it, fails for the arguments of a
    field: the argument [x] that repeats an earlier [x] gets the duplicate
    diagnostic and its type is checked all the same. *)
Lemma field_argument_checked_after_duplicate :
  run (forEachWith [outputTypedArg; outputTypedArg]
         (validateFields_arg (bareType "T" Object) "f") ∅) emptySchema
  = [fieldArgTypeError (bareType "T" Object) "f" outputTypedArg;
     fieldArgDuplicateError (bareType "T" Object) "f" outputTypedArg;
     fieldArgTypeError (bareType "T" Object) "f" outputTypedArg]
  ∧ ¬ skipsRepeated arg_name
        (λ l, forEachWith l (validateFields_arg (bareType "T" Object) "f") ∅)
        (λ a, run (validateName (arg_name a)
                     (InputValueDefinition <$> arg_astNode a)) emptySchema
              ++ [fieldArgDuplicateError (bareType "T" Object) "f" a])
        emptySchema.
Proof.
  split; [reflexivity|]. intros Hs.
  destruct (Hs [outputTypedArg] outputTypedArg []) as (b & a & E1 & E2).
  { apply (bool_decide_unpack _). vm_compute. exact I. }
  apply (f_equal length) in E1, E2.
  rewrite !length_app in E1, E2.
  change (length (run (forEachWith ([outputTypedArg] ++ [outputTypedArg])
                         _ ∅) emptySchema)) with 3 in E1.
  change (length (run (forEachWith ([outputTypedArg] ++ []) _ ∅) emptySchema))
    with 1 in E2.
  simpl in E1. lia.
Qed.

(** An enum value defined by two AST nodes and named [true]: the duplicate
    diagnostic does not end the checks of the value. *)
Example enum_value_checked_after_duplicate :
  let node := {| td_interfaces := None; td_fields := None; td_types := None;
                 td_values := Some [{| evd_name := "true" |};
                                    {| evd_name := "true" |}] |} in
  let E := mkNamedType "E" Enum (Some node) None [] [] [] []
             [{| ev_name := "true"; ev_astNode := None |}] in
  message <$> run (validateEnumValues E) emptySchema
  = ["Enum type E can include value true only once.";
     "Enum type E cannot include value: true."].
Proof. reflexivity. Qed.

Lemma repeated_element_checks_skipped_witness :
  ∃ before after,
    run (forEachWith ([outputTypedArg] ++ outputTypedArg :: [])
           (validateDirectives_arg repeatingDirective) ∅) emptySchema
    = before
      ++ (run (validateName "x" None) emptySchema
          ++ [directiveArgDuplicateError repeatingDirective outputTypedArg])
      ++ after
    ∧ run (forEachWith ([outputTypedArg] ++ [])
             (validateDirectives_arg repeatingDirective) ∅) emptySchema
      = before ++ after.
Proof.
  destruct (repeated_element_checks_skipped emptySchema) as [Hd _].
  apply (Hd repeatingDirective [outputTypedArg] outputTypedArg []).
  apply (bool_decide_unpack _). vm_compute. exact I.
Defined.

(** A directive with two arguments named [x]: one duplicate diagnostic, and
    the type of [x] is checked once. *)
Example directive_repeated_argument :
  message <$> run (validateDirectives_directive (IsDirective repeatingDirective))
                emptySchema
  = ["The type of @d(x:) must be Input Type but got: O.";
     "Argument @d(x:) can only be defined once."].
Proof. reflexivity. Qed.

Lemma validateSchema_computes_once_witness :
  __validationErrors validatedSchema = Some []
  ∧ validateSchema (IsSchema validatedSchema)
    = (Normal [], IsSchema validatedSchema)
  ∧ __validationErrors emptySchema = None
  ∧ validateSchema (IsSchema emptySchema)
    = (Normal [missingQueryRootError emptySchema],
       IsSchema (set__validationErrors emptySchema
                   [missingQueryRootError emptySchema])).
Proof.
  destruct validateSchema_computes_once as (Hcached & Hfirst & _).
  split; [reflexivity|].
  split; [apply (Hcached _ validatedSchema []); reflexivity|].
  split; [reflexivity|].
  rewrite (Hfirst _ emptySchema); reflexivity.
Defined.

(** A schema without query root: the single diagnostic of the missing
    root. *)
Example schema_without_query_root :
  run validateRootTypes emptySchema
  = [{| message := "Query root type must be provided."; nodes := [] |}].
Proof. reflexivity. Qed.

(** A mutation root that is an enum: one diagnostic, naming the enum. *)
Example schema_with_enum_mutation_root :
  message <$> run validateRootTypes enumMutationSchema
  = ["Mutation root type must be Object type if provided, it cannot be E."].
Proof. reflexivity. Qed.

(** The strict entry point on an invalid and on a valid schema. *)
Example assertValidSchema_throws :
  (assertValidSchema (IsSchema emptySchema)).1
  = Throw "Query root type must be provided."
  ∧ (assertValidSchema (IsSchema validatedSchema)).1 = Normal tt.
Proof. split; reflexivity. Qed.

(** Two diagnostics: their messages with two newline characters between
    them. *)
Example assertValidSchema_joins_by_blank_line :
  (validateSchema (IsSchema twoErrorsSchema)).1
  = Normal
      [missingQueryRootError twoErrorsSchema;
       rootKindError
         "Mutation root type must be Object type if provided, it cannot be "
         twoErrorsSchema (bareType "E" Enum) "mutation"]
  ∧ (assertValidSchema (IsSchema twoErrorsSchema)).1
    = Throw
        ("Query root type must be provided."
           +:+ String "010"%char (String "010"%char EmptyString)
           +:+ "Mutation root type must be Object type if provided, "
           +:+ "it cannot be E.").
Proof. split; reflexivity. Qed.

Lemma interface_field_variance_witness :
  isInterfaceType sampleI = true
  ∧ prop (getFields sampleO3) "f"
    = Some (field "f" (GraphQLNonNull String__)
              [argument "a" (GraphQLNonNull Int_)]).2
  ∧ run (validateObjectImplementsInterface sampleO3 sampleI) emptySchema
    = [argTypeMismatchError sampleO3 sampleI "f" (argument "a" Int_)
         (argument "a" (GraphQLNonNull Int_))].
Proof.
  split; [reflexivity|]. split; [reflexivity|].
  destruct (interface_field_variance emptySchema sampleO3 sampleI "f"
              (field "f" String__ [argument "a" Int_]).2
              (field "f" (GraphQLNonNull String__)
                 [argument "a" (GraphQLNonNull Int_)]).2)
    as (E & _ & _); [reflexivity | reflexivity |].
  rewrite E. reflexivity.
Defined.

(** The message of a refused return type cites both declared types. *)
Example interface_field_type_mismatch :
  message (fieldTypeMismatchError sampleO sampleI "f"
             (field "f" (GraphQLNonNull String__) []).2
             (field "f" String__ []).2)
  = "Interface field I.f expects type String! but O.f is type String.".
Proof. reflexivity. Qed.

Lemma extra_arguments_must_be_optional_witness :
  run (validateObjectImplementsInterface sampleO sampleI) emptySchema = []
  ∧ run (validateObjectImplementsInterface sampleO2 sampleI) emptySchema
    = [extraRequiredArgError sampleO2 sampleI "f"
         (argument "b" (GraphQLNonNull Int_))]
  ∧ run (forEach [argument "a" Int_; argument "b" (GraphQLNonNull Int_)]
           (validateObjectImplementsInterface_objectArg sampleO2 sampleI "f"
              (field "f" String__ [argument "a" Int_]).2)) emptySchema
    = [extraRequiredArgError sampleO2 sampleI "f"
         (argument "b" (GraphQLNonNull Int_))].
Proof.
  split; [reflexivity|]. split; [reflexivity|].
  destruct (extra_arguments_must_be_optional emptySchema sampleO2 sampleI "f"
              (field "f" String__ [argument "a" Int_]).2
              (field "f" String__
                 [argument "a" Int_; argument "b" (GraphQLNonNull Int_)]).2)
    as (E & _ & _).
  exact E.
Defined.

Lemma orList_partial_on_empty_witness :
  ["A"] ≠ [] ∧ ∃ s, OrList.orList ["A"] = Some s.
Proof.
  split; [discriminate|].
  destruct OrListFacts.orList_partial_on_empty as (_ & Hne & _).
  apply Hne. discriminate.
Defined.

(** ** The further properties on concrete schemas *)

Lemma same_fields_conform_witness :
  kind sampleI = Interface
  ∧ getFields sampleP = getFields sampleI
  ∧ run (validateObjectImplementsInterface sampleP sampleI) emptySchema = [].
Proof.
  split; [reflexivity|]. split; [reflexivity|].
  apply (same_fields_conform emptySchema sampleP sampleI).
  - reflexivity.
  - reflexivity.
  - apply (bool_decide_unpack _). vm_compute. exact I.
  - repeat constructor. apply (bool_decide_unpack _). vm_compute. exact I.
Defined.

Lemma field_redefined_in_extension_witness :
  astNode extendedType = Some sampleTypeNode
  ∧ extensionASTNodes extendedType = Some [sampleTypeNode]
  ∧ message <$> run (validateFields_field extendedType
                       (field "f" String__ [])) emptySchema
    = ["Field T.f can only be defined once."].
Proof.
  split; [reflexivity|]. split; [reflexivity|].
  rewrite (field_redefined_in_extension emptySchema extendedType "f"
             (field "f" String__ []).2 sampleTypeNode sampleTypeNode
             [sampleTypeNode] [sampleFieldNode] [sampleFieldNode]
             sampleFieldNode sampleFieldNode);
    first [ reflexivity | by left ].
Defined.

Lemma no_ast_no_redefinition_witness :
  astNode sampleO = None ∧ extensionASTNodes sampleO = None
  ∧ getAllFieldNodes sampleO "f" = []
  ∧ run (validateFields sampleO) emptySchema = [].
Proof.
  split; [reflexivity|]. split; [reflexivity|].
  destruct (no_ast_no_redefinition emptySchema sampleO) as (Hf & _);
    [reflexivity | reflexivity |].
  split; [apply Hf | reflexivity].
Defined.

Lemma orList_ignores_items_beyond_five_witness :
  length ["A"; "B"; "C"; "D"; "E"] = 5
  ∧ OrList.orList (["A"; "B"; "C"; "D"; "E"] ++ ["F"; "G"])
    = Some "A, B, C, D, or E".
Proof.
  split; [reflexivity|].
  destruct (OrListMore.orList_ignores_items_beyond_five
              ["A"; "B"; "C"; "D"; "E"] ["F"; "G"]) as [E _]; [reflexivity|].
  rewrite E. reflexivity.
Defined.

Lemma orList_joins_witness :
  (2 ≤ length ["A"; "B"; "C"] ≤ 4)%nat
  ∧ OrList.orList (["A"; "B"; "C"] ++ ["D"]) = Some "A, B, C, or D".
Proof.
  split; [simpl; lia|].
  destruct (OrListMore.orList_joins ["A"; "B"; "C"] "D") as [E _];
    [simpl; lia|].
  rewrite E. reflexivity.
Defined.
